(** * Link checker: discovery and resolution engine

    A shallow embedding of [internal/checker/checker.go] (package
    [checker]) and of the part of [internal/config/config.go] it reads,
    followed by the properties of the sitemap loader, the crawler, the
    link extractor, the base-URL resolver and the single-link check.

    Conventions of the embedding.
    - Go [string] is [string] (a sequence of bytes); Go [int] is [Z]
      (no arithmetic of the program can overflow: the only operation is
      [depth+1] below [maxDepth]).
    - A Go [error] is its message; a [(T, error)] pair is [result T].
    - The standard library and [golang.org/x/net/html] are outside the
      repository.  The byte-level functions of package [strings] are
      defined here; the Unicode-aware ones, the URL and document parsers
      and the request constructor are the fields of the class [Env], so
      every theorem holds for whatever these libraries compute.
    - The network is the [client] field of the [Checker]: a function from
      a request to a response or a transport error (a fixed site).
    - A function that talks to the network returns its value paired with
      the list of requests it issued, in order.
    - Output printed under [Verbose] is not modelled. *)

From Stdlib Require Import ZArith String Ascii List Bool Lia DecimalString.
From stdpp Require Import base option gmap strings list.

Set Default Proof Using "Type".
Set Warnings "-register-all".

(** ** Errors *)

Definition error := string.

Inductive result (A : Type) : Type :=
| Ok (a : A)
| Err (e : error).
Arguments Ok {A} a.
Arguments Err {A} e.

Definition is_Err {A} (r : result A) : bool :=
  match r with Ok _ => false | Err _ => true end.

(** ** Package [strings], byte-level functions

    [Split], [Contains] and [LastIndex] are only called with a one-byte
    separator in the program (["/"], [";"], ["."]), which is the [ascii]
    argument here. *)

Module GoStrings.

Definition HasPrefix (s prefix : string) : bool := String.prefix prefix s.

(* len(s) >= len(suffix) && s[len(s)-len(suffix):] == suffix *)
Definition HasSuffix (s suffix : string) : bool :=
  (String.length suffix <=? String.length s)%nat &&
  String.eqb (substring (String.length s - String.length suffix)
                        (String.length suffix) s) suffix.

(* if HasSuffix(s, suffix) { return s[:len(s)-len(suffix)] }; return s *)
Definition TrimSuffix (s suffix : string) : string :=
  if HasSuffix s suffix
  then substring 0 (String.length s - String.length suffix) s
  else s.

(* strings.Split(s, sep): never empty; Split("", sep) = [""] *)
Fixpoint Split (s : string) (sep : ascii) : list string :=
  match s with
  | EmptyString => [EmptyString]
  | String ch s' =>
      if Ascii.eqb ch sep then EmptyString :: Split s' sep
      else match Split s' sep with
           | [] => [String ch EmptyString]
           | x :: xs => String ch x :: xs
           end
  end.

Fixpoint Contains (s : string) (b : ascii) : bool :=
  match s with
  | EmptyString => false
  | String ch s' => Ascii.eqb ch b || Contains s' b
  end.

(* index of the last occurrence, -1 when absent *)
Fixpoint LastIndex (s : string) (b : ascii) : Z :=
  match s with
  | EmptyString => (-1)%Z
  | String ch s' =>
      let r := LastIndex s' b in
      if (0 <=? r)%Z then (r + 1)%Z
      else if Ascii.eqb ch b then 0%Z else (-1)%Z
  end.

(* s[i:] *)
Definition slice_from (s : string) (i : Z) : string :=
  substring (Z.to_nat i) (String.length s - Z.to_nat i) s.

End GoStrings.

(** ** Data of the collaborating packages *)

(** [url.URL]; [User] is the optional user name and optional password. *)
Record URL := mkURL {
  Scheme : string;
  Opaque : string;
  User : option (string * option string);
  Host : string;
  Path : string;
  RawPath : string;
  OmitHost : bool;
  ForceQuery : bool;
  RawQuery : string;
  Fragment : string;
  RawFragment : string
}.

(** [newURL := *currentURL; newURL.Path = p] *)
Definition set_Path (u : URL) (p : string) : URL :=
  {| Scheme := Scheme u; Opaque := Opaque u; User := User u; Host := Host u;
     Path := p; RawPath := RawPath u; OmitHost := OmitHost u;
     ForceQuery := ForceQuery u; RawQuery := RawQuery u;
     Fragment := Fragment u; RawFragment := RawFragment u |}.

(** [html.Node]: the sibling chain [FirstChild]/[NextSibling] is the list
    of children. *)
Inductive NodeType :=
| ErrorNode | TextNode | DocumentNode | ElementNode
| CommentNode | DoctypeNode | RawNode.

Record Attribute := mkAttr {
  Namespace : string;
  Key : string;
  Val : string
}.

Inductive Node := mkNode {
  Type_ : NodeType;
  Data : string;
  Attr : list Attribute;
  Children : list Node
}.

(** [http.Request], as far as the program sets it. *)
Record Request := mkRequest {
  Method : string;
  ReqURL : string;
  UserAgentHeader : string
}.

(** [Sitemap]: the struct [xml.Unmarshal] fills. *)
Record UrlEntry := mkUrlEntry { Loc : string }.

Record Sitemap := mkSitemap {
  XMLName : string;
  URLs : list UrlEntry
}.

(** [LinkResult] *)
Record LinkResult := mkLinkResult {
  LR_URL : string;
  LR_StatusCode : Z;
  LR_Error : string;
  LR_Duration : string
}.

(** ** The libraries the program calls *)

Class Env := {
  (* regexp *)
  Regexp : Type;
  MatchString : Regexp -> string -> bool;
  (* net/url *)
  url_Parse : string -> result URL;
  url_String : URL -> string;
  (* base.ResolveReference(ref) *)
  url_ResolveReference : URL -> URL -> URL;
  (* response bodies and their readers *)
  Body : Type;
  io_ReadAll : Body -> result string;
  html_Parse : Body -> result Node;
  (* xml.Unmarshal(body, &sitemap) *)
  xml_Unmarshal : string -> result Sitemap;
  (* the error of http.NewRequest(method, url, nil), if any *)
  http_NewRequest_error : string -> string -> option error;
  (* Unicode-aware functions of package strings *)
  strings_ToLower : string -> string;
  strings_TrimSpace : string -> string
}.

(** [http.Response] *)
Record Response `{Env} := mkResponse {
  Status : string;
  StatusCode : Z;
  Header : gmap string (list string);
  RespBody : Body
}.

(** [config.Config], the fields the checker reads. *)
Record Config `{Env} := mkConfig {
  UserAgent : string;
  ExcludePatterns : list Regexp;
  Verbose : bool
}.

(** [Checker]: the configuration and the HTTP client. *)
Record Checker `{Env} := mkChecker {
  config : Config;
  client : Request -> result Response
}.

(** A value together with the requests issued while computing it. *)
Definition Net (A : Type) : Type := (A * list Request)%type.

Definition ret {A} (a : A) : Net A := (a, []).

Definition bind {A B} (m : Net A) (k : A -> Net B) : Net B :=
  let '(a, l1) := m in
  let '(b, l2) := k a in
  (b, l1 ++ l2).

Notation "'do' x <- m ;; k" := (bind m (fun x => k))
  (at level 10, x name, m at level 99, k at level 200,
   format "'[v' 'do'  x  <-  m  ;;  '/' k ']'").

(** Decimal rendering of an [int] ([%d]). *)
Definition fmt_d (z : Z) : string := NilZero.string_of_int (Z.to_int z).

(** Reading a [map[string]bool]: a missing key reads [false]. *)
Definition map_get (m : gmap string bool) (k : string) : bool :=
  default false (m !! k).

(** ** Lookup tables of the resolver *)

Definition set_of (keys : list string) : gmap string bool :=
  list_to_map (map (fun k => (k, true)) keys).

(** [fileExtensions] of [getResolveBaseURL] *)
Definition fileExtensions : gmap string bool :=
  set_of [ "html"; "htm"; "php"; "asp"; "aspx";
           "jsp"; "js"; "css"; "xml"; "json";
           "txt"; "pdf"; "doc"; "docx"; "jpg";
           "jpeg"; "png"; "gif"; "svg"; "ico";
           "zip"; "tar"; "gz"; "mp3"; "mp4";
           "woff"; "woff2"; "ttf"; "otf"; "eot" ].

(** [directoryTypes] of [isFileMimeType] *)
Definition directoryTypes : gmap string bool :=
  set_of [ "text/plain"; "application/json"; "application/xml"; "text/xml" ].

(** [fileTypes] of [isFileMimeType] *)
Definition fileTypes : gmap string bool :=
  set_of [ "application/pdf"; "application/msword";
           "application/vnd.openxmlformats-officedocument.wordprocessingml.document";
           "application/vnd.ms-excel";
           "application/vnd.openxmlformats-officedocument.spreadsheetml.sheet";
           "application/vnd.ms-powerpoint";
           "application/vnd.openxmlformats-officedocument.presentationml.presentation";
           "application/rtf";
           "application/zip"; "application/x-rar-compressed";
           "application/x-7z-compressed"; "application/x-tar";
           "application/gzip"; "application/x-gzip";
           "image/jpeg"; "image/png"; "image/gif"; "image/webp";
           "image/svg+xml"; "image/bmp"; "image/tiff"; "image/x-icon";
           "audio/mpeg"; "audio/wav"; "audio/ogg"; "audio/mp4";
           "audio/aac"; "audio/flac";
           "video/mp4"; "video/mpeg"; "video/quicktime"; "video/x-msvideo";
           "video/webm";
           "application/javascript"; "text/css"; "text/csv";
           "font/woff"; "font/woff2"; "application/font-woff";
           "application/font-woff2"; "font/ttf"; "font/otf";
           "application/octet-stream" ].

(** [n.Type == html.ElementNode && n.Data == tag] *)
Definition is_element (n : Node) (tag : string) : bool :=
  match Type_ n with
  | ElementNode => String.eqb (Data n) tag
  | _ => false
  end.

(** The attribute loop [for _, attr := range n.Attr] that stops at the
    first attribute whose key is ["href"]. *)
Definition first_href (n : Node) : option string :=
  Val <$> List.find (fun attr => String.eqb (Key attr) "href") (Attr n).

(** State of one [CrawlWebsite] call: the variables [visited] and [urls]
    captured by the closure [crawl], and the requests issued so far. *)
Record CrawlState := mkCrawlState {
  visited : gmap string bool;
  urls : list string;
  requests : list Request
}.

(** [visited[u] = true; urls = append(urls, u)] *)
Definition record_url (u : string) (st : CrawlState) : CrawlState :=
  {| visited := <[u := true]> (visited st);
     urls := urls st ++ [u];
     requests := requests st |}.

Definition log_requests (reqs : list Request) (st : CrawlState) : CrawlState :=
  {| visited := visited st;
     urls := urls st;
     requests := requests st ++ reqs |}.

Definition empty_state : CrawlState :=
  {| visited := ∅; urls := []; requests := [] |}.

(** ** The checker *)

Section Checker.
Context `{E : Env}.
Variable c : Checker.

Definition http_NewRequest (method url : string) : result Request :=
  match http_NewRequest_error method url with
  | Some e => Err e
  | None => Ok {| Method := method; ReqURL := url; UserAgentHeader := "" |}
  end.

(* req.Header.Set("User-Agent", ua) *)
Definition set_UserAgent (req : Request) (ua : string) : Request :=
  {| Method := Method req; ReqURL := ReqURL req; UserAgentHeader := ua |}.

(* req.Method = m *)
Definition set_Method (req : Request) (m : string) : Request :=
  {| Method := m; ReqURL := ReqURL req;
     UserAgentHeader := UserAgentHeader req |}.

(* c.client.Do(req) *)
Definition client_Do (req : Request) : Net (result Response) :=
  (client c req, [req]).

(* resp.Header.Get(key), for a key in canonical form *)
Definition Header_Get (h : gmap string (list string)) (key : string) : string :=
  match h !! key with
  | Some (v :: _) => v
  | _ => ""
  end.

(** *** shouldExclude *)
Definition shouldExclude (url : string) : bool :=
  existsb (fun pattern => MatchString pattern url)
          (ExcludePatterns (config c)).

(** *** GetURLsFromSitemap *)
Definition GetURLsFromSitemap (sitemapURL : string)
  : Net (result (list string)) :=
  match http_NewRequest "GET" sitemapURL with
  | Err e => ret (Err ("creating request: " +:+ e))
  | Ok req =>
      let req := set_UserAgent req (UserAgent (config c)) in
      do resp <- client_Do req ;;
      match resp with
      | Err e => ret (Err ("fetching sitemap: " +:+ e))
      | Ok resp =>
          if negb (StatusCode resp =? 200)%Z
          then ret (Err ("sitemap returned status " +:+ fmt_d (StatusCode resp)))
          else
            match io_ReadAll (RespBody resp) with
            | Err e => ret (Err ("reading sitemap: " +:+ e))
            | Ok body =>
                match xml_Unmarshal body with
                | Err e => ret (Err ("parsing sitemap XML: " +:+ e))
                | Ok sitemap =>
                    ret (Ok (fold_left
                               (fun urls urlEntry =>
                                  if negb (shouldExclude (Loc urlEntry))
                                  then urls ++ [Loc urlEntry]
                                  else urls)
                               (URLs sitemap) []))
                end
            end
      end
  end.

(** *** resolveURL *)
Definition resolveURL (href : string) (baseURL : URL) : string :=
  if String.eqb href "" || GoStrings.HasPrefix href "#"
     || GoStrings.HasPrefix href "javascript:"
     || GoStrings.HasPrefix href "mailto:"
  then ""
  else
    match url_Parse href with
    | Err _ => ""
    | Ok linkURL => url_String (url_ResolveReference baseURL linkURL)
    end.

(** *** isFileMimeType *)
Definition isFileMimeType (mimeType : string) : bool :=
  if map_get directoryTypes mimeType then false
  else map_get fileTypes mimeType.

(** *** isFileByContentType *)
Definition isFileByContentType (urlStr : string) : Net (result bool) :=
  match http_NewRequest "HEAD" urlStr with
  | Err e => ret (Err e)
  | Ok req =>
      let req := set_UserAgent req (UserAgent (config c)) in
      do resp <- client_Do req ;;
      match resp with
      | Err e => ret (Err e)
      | Ok resp =>
          if (400 <=? StatusCode resp)%Z
          then ret (Err ("HTTP " +:+ fmt_d (StatusCode resp)))
          else
            let contentType := Header_Get (Header resp) "Content-Type" in
            if String.eqb contentType ""
            then ret (Err "no Content-Type header")
            else
              let mimeType := nth 0 (GoStrings.Split contentType ";") "" in
              let mimeType := strings_TrimSpace (strings_ToLower mimeType) in
              ret (Ok (isFileMimeType mimeType))
      end
  end.

(** [newURL.Path = strings.TrimSuffix(currentURL.Path, lastSegment)]
    followed by [if !strings.HasSuffix(newURL.Path, "/") { newURL.Path += "/" }] *)
Definition parent_directory (currentURL : URL) (lastSegment : string) : URL :=
  let newURL := set_Path currentURL
                  (GoStrings.TrimSuffix (Path currentURL) lastSegment) in
  if negb (GoStrings.HasSuffix (Path newURL) "/")
  then set_Path newURL (Path newURL +:+ "/")
  else newURL.

(** The first stage of [getResolveBaseURL] after the trailing-slash
    test: [Some] is its [return &newURL], [None] is falling through to
    the Content-Type stage. *)
Definition extension_stage (currentURL : URL) : option URL :=
  let pathSegments := GoStrings.Split (Path currentURL) "/" in
  if (0 <? length pathSegments)%nat then
    let lastSegment := nth (length pathSegments - 1) pathSegments "" in
    if GoStrings.Contains lastSegment "." then
      let dotIndex := GoStrings.LastIndex lastSegment "." in
      let extension := GoStrings.slice_from lastSegment (dotIndex + 1) in
      if map_get fileExtensions (strings_ToLower extension)
      then Some (parent_directory currentURL lastSegment)
      else None
    else None
  else None.

(** Whether the first stage returns: the last segment of the path has
    a dot and the text after its last dot, lowered, is a key of
    [fileExtensions]. *)
Definition has_recognized_extension (currentURL : URL) : bool :=
  match extension_stage currentURL with
  | Some _ => true
  | None => false
  end.

(** *** getResolveBaseURL *)
Definition getResolveBaseURL (currentURL : URL) : Net URL :=
  if GoStrings.HasSuffix (Path currentURL) "/" then ret currentURL
  else
    match extension_stage currentURL with
    | Some newURL => ret newURL
    | None =>
        do r <- isFileByContentType (url_String currentURL) ;;
        match r with
        | Ok isFile =>
            if isFile then
              let pathSegments := GoStrings.Split (Path currentURL) "/" in
              if (0 <? length pathSegments)%nat
              then ret (parent_directory currentURL
                          (nth (length pathSegments - 1) pathSegments ""))
              else ret currentURL
            else ret (set_Path currentURL (Path currentURL +:+ "/"))
        | Err _ => ret (set_Path currentURL (Path currentURL +:+ "/"))
        end
    end.

(** *** extractLinksFromPage

    The variable [resolveBaseURL] is a pointer that starts as the
    pointer [currentURL]; [ResolveReference] always allocates, so the
    test [resolveBaseURL == currentURL] holds exactly when no
    assignment happened.  [None] is "still the pointer [currentURL]",
    [Some u] is a URL assigned by [findBase]. *)
Fixpoint findBase (currentURL : URL) (n : Node) (resolveBaseURL : option URL)
  : option URL :=
  let resolveBaseURL :=
    if is_element n "base" then
      match first_href n with
      | Some val =>
          match url_Parse val with
          | Ok baseHref => Some (url_ResolveReference currentURL baseHref)
          | Err _ => resolveBaseURL
          end
      | None => resolveBaseURL
      end
    else resolveBaseURL in
  fold_left (fun acc child => findBase currentURL child acc)
            (Children n) resolveBaseURL.

(** What one anchor element appends to [links]. *)
Definition anchor_link (resolveBaseURL baseURL : URL) (link : string)
  : option string :=
  let absoluteURL := resolveURL link resolveBaseURL in
  if negb (String.eqb absoluteURL "") then
    match url_Parse absoluteURL with
    | Ok linkURL =>
        if String.eqb (Host linkURL) (Host baseURL)
        then Some absoluteURL
        else None
    | Err _ => None
    end
  else None.

Fixpoint extract (resolveBaseURL baseURL : URL) (n : Node) (links : list string)
  : list string :=
  let links :=
    if is_element n "a" then
      match first_href n with
      | Some link =>
          match anchor_link resolveBaseURL baseURL link with
          | Some absoluteURL => links ++ [absoluteURL]
          | None => links
          end
      | None => links
      end
    else links in
  fold_left (fun acc child => extract resolveBaseURL baseURL child acc)
            (Children n) links.

Definition extractLinksFromPage (pageURL : string) (currentURL baseURL : URL)
  : Net (result (list string)) :=
  match http_NewRequest "GET" pageURL with
  | Err e => ret (Err e)
  | Ok req =>
      let req := set_UserAgent req (UserAgent (config c)) in
      do resp <- client_Do req ;;
      match resp with
      | Err e => ret (Err e)
      | Ok resp =>
          if negb (StatusCode resp =? 200)%Z
          then ret (Err ("page returned status " +:+ fmt_d (StatusCode resp)))
          else
            match html_Parse (RespBody resp) with
            | Err e => ret (Err e)
            | Ok doc =>
                do resolveBaseURL <-
                  match findBase currentURL doc None with
                  | Some u => ret u
                  | None => getResolveBaseURL currentURL
                  end ;;
                ret (Ok (extract resolveBaseURL baseURL doc []))
            end
      end
  end.

(** *** CrawlWebsite

    The closure [crawl] captures [maxDepth], [baseURLParsed], [visited]
    and [urls].  Its recursion is bounded by the number of calls that
    can be nested, [fuel]; [None] is running out of it, which
    [CrawlWebsite] never does (see [CrawlWebsite_total]). *)
Section Crawl.
Variable maxDepth : Z.
Variable baseURLParsed : URL.

(* for _, link := range links {
     if !visited[link] && !c.shouldExclude(link) { crawl(link, depth+1) } } *)
Fixpoint crawl_links (crawl : string -> Z -> CrawlState -> option CrawlState)
    (links : list string) (depth : Z) (st : CrawlState) : option CrawlState :=
  match links with
  | [] => Some st
  | link :: rest =>
      if negb (map_get (visited st) link) && negb (shouldExclude link)
      then match crawl link (depth + 1)%Z st with
           | Some st' => crawl_links crawl rest depth st'
           | None => None
           end
      else crawl_links crawl rest depth st
  end.

Fixpoint crawl (fuel : nat) (currentURL : string) (depth : Z)
    (st : CrawlState) : option CrawlState :=
  match fuel with
  | O => None
  | S fuel' =>
      if (maxDepth <? depth)%Z then Some st
      else if map_get (visited st) currentURL then Some st
      else
        let st := record_url currentURL st in
        if (depth =? maxDepth)%Z then Some st
        else
          match url_Parse currentURL with
          | Err _ => Some st
          | Ok currentURLParsed =>
              let '(links, reqs) :=
                extractLinksFromPage currentURL currentURLParsed
                                     baseURLParsed in
              let st := log_requests reqs st in
              match links with
              | Err _ => Some st
              | Ok links => crawl_links (crawl fuel') links depth st
              end
          end
  end.
End Crawl.

(** The calls of [crawl] nest at most [maxDepth + 1] deep. *)
Definition crawl_fuel (maxDepth : Z) : nat := S (Z.to_nat maxDepth).

Definition CrawlWebsite (baseURL : string) (maxDepth : Z)
  : option (Net (result (list string))) :=
  match url_Parse baseURL with
  | Err e => Some (ret (Err ("parsing base URL: " +:+ e)))
  | Ok baseURLParsed =>
      match crawl maxDepth baseURLParsed (crawl_fuel maxDepth)
                  baseURL 0 empty_state with
      | Some st => Some (Ok (urls st), requests st)
      | None => None
      end
  end.

(** *** checkSingleLink

    [elapsed] is what [time.Since(start).String()] evaluates to at the
    [return] that is taken. *)
Definition checkSingleLink (checkURL : string) (elapsed : string)
  : Net LinkResult :=
  match http_NewRequest "HEAD" checkURL with
  | Err e =>
      ret {| LR_URL := checkURL; LR_StatusCode := 0;
             LR_Error := "creating request: " +:+ e;
             LR_Duration := elapsed |}
  | Ok req =>
      let req := set_UserAgent req (UserAgent (config c)) in
      do resp <- client_Do req ;;
      do resp <-
        match resp with
        | Ok resp => ret (Ok resp)
        | Err _ =>
            (* Try GET request if HEAD fails *)
            client_Do (set_Method req "GET")
        end ;;
      match resp with
      | Err e =>
          ret {| LR_URL := checkURL; LR_StatusCode := 0;
                 LR_Error := "request failed: " +:+ e;
                 LR_Duration := elapsed |}
      | Ok resp =>
          let result :=
            {| LR_URL := checkURL; LR_StatusCode := StatusCode resp;
               LR_Error := ""; LR_Duration := elapsed |} in
          if (400 <=? StatusCode resp)%Z
          then ret {| LR_URL := LR_URL result;
                      LR_StatusCode := LR_StatusCode result;
                      LR_Error := "HTTP " +:+ fmt_d (StatusCode resp)
                                  +:+ " " +:+ Status resp;
                      LR_Duration := LR_Duration result |}
          else ret result
      end
  end.

End Checker.

(** * A small concrete world

    The properties below hold for every [Env] and every [Checker].  To run
    the program on concrete inputs, this module fixes one [Env] over a
    small fragment of what the libraries accept:
    - URLs of the shape [scheme://host/path] and path-only references,
      without query, fragment, user, escapes or dot segments, on which the
      functions below agree with [net/url];
    - patterns without metacharacters, for which [MatchString] is
      substring search;
    - response bodies given by the document they parse to;
    - ASCII lowering and trimming. *)

Module Fixture.

Definition plain_URL (scheme host path : string) : URL :=
  {| Scheme := scheme; Opaque := ""; User := None; Host := host;
     Path := path; RawPath := ""; OmitHost := false; ForceQuery := false;
     RawQuery := ""; Fragment := ""; RawFragment := "" |}.

Definition Parse (s : string) : result URL :=
  if String.prefix ":" s then Err "missing protocol scheme"
  else
    match String.index 0 "://" s with
    | Some i =>
        let rest := substring (i + 3) (String.length s - (i + 3)) s in
        match String.index 0 "/" rest with
        | Some j =>
            Ok (plain_URL (substring 0 i s) (substring 0 j rest)
                          (substring j (String.length rest - j) rest))
        | None => Ok (plain_URL (substring 0 i s) rest "")
        end
    | None => Ok (plain_URL "" "" s)
    end.

Definition to_String (u : URL) : string :=
  if String.eqb (Scheme u) "" then Path u
  else Scheme u +:+ "://" +:+ Host u +:+ Path u.

(* base.ResolveReference(ref) *)
Definition ResolveReference (base ref : URL) : URL :=
  if negb (String.eqb (Scheme ref) "") then ref
  else if String.eqb (Path ref) "" then base
  else if String.prefix "/" (Path ref) then set_Path base (Path ref)
  else
    let cut := Z.to_nat (GoStrings.LastIndex (Path base) "/" + 1) in
    set_Path base (substring 0 cut (Path base) +:+ Path ref).

Definition lower_byte (a : ascii) : ascii :=
  let n := nat_of_ascii a in
  if (65 <=? n)%nat && (n <=? 90)%nat then ascii_of_nat (n + 32) else a.

Fixpoint ToLower (s : string) : string :=
  match s with
  | EmptyString => EmptyString
  | String a s' => String (lower_byte a) (ToLower s')
  end.

Fixpoint trim_left (s : string) : string :=
  match s with
  | String a s' => if Ascii.eqb a " " then trim_left s' else s
  | EmptyString => EmptyString
  end.

Fixpoint rev_string (s acc : string) : string :=
  match s with
  | EmptyString => acc
  | String a s' => rev_string s' (String a acc)
  end.

Definition TrimSpace (s : string) : string :=
  rev_string (trim_left (rev_string (trim_left s) "")) "".

(** A response body is known by what its readers return. *)
Inductive body :=
| HtmlBody (doc : Node)
| XmlBody (text : string) (decoded : Sitemap)
| BrokenBody.

Definition ReadAll (b : body) : result string :=
  match b with
  | XmlBody text _ => Ok text
  | HtmlBody _ => Ok "<html>"
  | BrokenBody => Err "unexpected EOF"
  end.

Definition html_of (b : body) : result Node :=
  match b with
  | HtmlBody doc => Ok doc
  | XmlBody _ _ => Ok (mkNode DocumentNode "" [] [])
  | BrokenBody => Err "unexpected EOF"
  end.

(** The one sitemap document of the fixture and the struct
    [xml.Unmarshal] decodes it to: two entries with a [loc], one
    without, and a repeated one. *)
Definition sitemap_text : string :=
  "<urlset><url><loc>http://h/a</loc></url><url></url><url><loc>http://h/private/x</loc></url><url><loc>http://h/a</loc></url></urlset>".

Definition sitemap_struct : Sitemap :=
  {| XMLName := "urlset";
     URLs := [ mkUrlEntry "http://h/a"; mkUrlEntry "";
               mkUrlEntry "http://h/private/x"; mkUrlEntry "http://h/a" ] |}.

Definition Unmarshal (text : string) : result Sitemap :=
  if String.eqb text sitemap_text then Ok sitemap_struct
  else Err "EOF".

Definition env : Env :=
  {| Regexp := string;
     MatchString := fun pattern s =>
       match String.index 0 pattern s with Some _ => true | None => false end;
     url_Parse := Parse;
     url_String := to_String;
     url_ResolveReference := ResolveReference;
     Body := body;
     io_ReadAll := ReadAll;
     html_Parse := html_of;
     xml_Unmarshal := Unmarshal;
     http_NewRequest_error := fun _ url =>
       match Parse url with Err e => Some e | Ok _ => None end;
     strings_ToLower := ToLower;
     strings_TrimSpace := TrimSpace |}.

#[local] Existing Instance env.

(** Documents: [<html><head>..</head><body>..</body></html>]. *)
Definition element (tag : string) (attrs : list Attribute)
    (children : list Node) : Node :=
  mkNode ElementNode tag attrs children.

Definition anchor (href : string) : Node :=
  element "a" [mkAttr "" "href" href] [mkNode TextNode "link" [] []].

Definition base_tag (href : string) : Node :=
  element "base" [mkAttr "" "href" href] [].

Definition document (head body : list Node) : Node :=
  mkNode DocumentNode "" []
    [element "html" [] [element "head" [] head; element "body" [] body]].

Definition page_response (doc : Node) : Response :=
  {| Status := "200 OK"; StatusCode := 200;
     Header := {[ "Content-Type" := ["text/html"] ]};
     RespBody := HtmlBody doc |}.

Definition ok_page (doc : Node) : result Response := Ok (page_response doc).

Definition not_found : result Response :=
  Ok {| Status := "404 Not Found"; StatusCode := 404;
        Header := {[ "Content-Type" := ["text/plain"] ]};
        RespBody := BrokenBody |}.

(** A site: each listed URL answers [GET] with a page whose anchors are
    the given hrefs; every other request gets a 404. *)
Fixpoint site (pages : list (string * list string)) (req : Request)
  : result Response :=
  match pages with
  | [] => not_found
  | (url, hrefs) :: rest =>
      if String.eqb (Method req) "GET" && String.eqb (ReqURL req) url
      then ok_page (document [] (map anchor hrefs))
      else site rest req
  end.

Definition checker (patterns : list string)
    (transport : Request -> result Response) : Checker :=
  {| config := {| UserAgent := "TestBot/1.0"; ExcludePatterns := patterns;
                  Verbose := false |};
     client := transport |}.

(** A site with a cycle: [a] links to [b], [b] links back to [a]. *)
Definition cyclic_site : Request -> result Response :=
  site [ ("http://h/a/", ["http://h/b/"]);
         ("http://h/b/", ["http://h/a/"; "http://h/b/"]) ].

(** A site where [c] is linked from the seed [a] and, three links deep,
    from [e]: [a -> b, c], [b -> e], [e -> c], [c -> d]. *)
Definition detour_site : Request -> result Response :=
  site [ ("http://h/a/", ["http://h/b/"; "http://h/c/"]);
         ("http://h/b/", ["http://h/e/"]);
         ("http://h/e/", ["http://h/c/"]);
         ("http://h/c/", ["http://h/d/"]) ].

(** A page with two [<base>] elements. *)
Definition two_bases : Node :=
  document [base_tag "/x/"; base_tag "/y/"] [anchor "c"].

Definition two_bases_site (req : Request) : result Response :=
  if String.eqb (Method req) "GET" && String.eqb (ReqURL req) "http://h/a/b"
  then ok_page two_bases
  else not_found.

(** A server that serves the sitemap of the fixture. *)
Definition sitemap_response : Response :=
  {| Status := "200 OK"; StatusCode := 200;
     Header := {[ "Content-Type" := ["application/xml"] ]};
     RespBody := XmlBody sitemap_text sitemap_struct |}.

Definition sitemap_site (req : Request) : result Response :=
  if String.eqb (ReqURL req) "http://h/sitemap.xml"
  then Ok sitemap_response
  else not_found.

(** A server that refuses [HEAD] at the transport level and answers
    [GET] with 200. *)
Definition no_head_site (req : Request) : result Response :=
  if String.eqb (Method req) "HEAD" then Err "EOF"
  else ok_page (document [] []).

(** A network that is down. *)
Definition unreachable (req : Request) : result Response :=
  Err "dial tcp: connection refused".

End Fixture.

(** * Properties *)

#[local] Arguments String.append !s1 s2 / : simpl nomatch.

(** ** Package [strings] *)

Section GoStringsFacts.
Import GoStrings.

Lemma length_append a b :
  String.length (a +:+ b) = (String.length a + String.length b)%nat.
Proof. induction a as [|ch a IH]; simpl; [done|]. by rewrite IH. Qed.

Lemma append_nil_r a : a +:+ "" = a.
Proof. induction a as [|ch a IH]; simpl; [done|]. by rewrite IH. Qed.

Lemma append_assoc a b d : (a +:+ b) +:+ d = a +:+ (b +:+ d).
Proof. induction a as [|ch a IH]; simpl; [done|]. by rewrite IH. Qed.

Lemma substring_all s : substring 0 (String.length s) s = s.
Proof. induction s as [|ch s IH]; simpl; [done|]. by rewrite IH. Qed.

Lemma substring_skip a b n m :
  substring (String.length a + n) m (a +:+ b) = substring n m b.
Proof. induction a as [|ch a IH]; simpl; done. Qed.

Lemma substring_take a b :
  substring 0 (String.length a) (a +:+ b) = a.
Proof.
  induction a as [|ch a IH]; simpl; [by destruct b|]. by rewrite IH.
Qed.

Lemma HasSuffix_append a b : HasSuffix (a +:+ b) b = true.
Proof.
  unfold HasSuffix. rewrite length_append.
  apply andb_true_intro. split; [apply Nat.leb_le; lia|].
  replace (String.length a + String.length b - String.length b)%nat
    with (String.length a + 0)%nat by lia.
  rewrite substring_skip, substring_all. apply String.eqb_refl.
Qed.

Lemma substring_split s k :
  (k <= String.length s)%nat ->
  s = substring 0 k s +:+ substring k (String.length s - k) s.
Proof.
  revert k. induction s as [|ch s IH]; intros k Hk; simpl in *.
  - by destruct k.
  - destruct k as [|k]; simpl.
    + by rewrite substring_all.
    + rewrite <- IH by lia. done.
Qed.

Lemma HasSuffix_inv s suffix :
  HasSuffix s suffix = true -> exists p, s = p +:+ suffix.
Proof.
  unfold HasSuffix. intros [Hle Heq]%andb_true_iff.
  apply Nat.leb_le in Hle. apply String.eqb_eq in Heq.
  exists (substring 0 (String.length s - String.length suffix) s).
  rewrite (substring_split s (String.length s - String.length suffix)) at 1 by lia.
  f_equal. rewrite <- Heq at 3. f_equal. lia.
Qed.

Lemma TrimSuffix_append a b : TrimSuffix (a +:+ b) b = a.
Proof.
  unfold TrimSuffix. rewrite HasSuffix_append, length_append.
  replace (String.length a + String.length b - String.length b)%nat
    with (String.length a) by lia.
  apply substring_take.
Qed.

Lemma Split_nonempty s sep : Split s sep <> [].
Proof.
  induction s as [|ch s IH]; simpl; [done|].
  destruct (Ascii.eqb ch sep); [done|]. by destruct (Split s sep).
Qed.

Lemma Split_no_sep s sep : Contains s sep = false -> Split s sep = [s].
Proof.
  induction s as [|ch s IH]; simpl; [done|].
  intros [Hch Hs]%orb_false_iff. rewrite Hch, (IH Hs). done.
Qed.

Lemma Split_append_sep p s sep :
  Split (p +:+ String sep s) sep = Split p sep ++ Split s sep.
Proof.
  induction p as [|ch p IH]; simpl.
  - by rewrite Ascii.eqb_refl.
  - rewrite IH. destruct (Ascii.eqb ch sep); [done|].
    pose proof (Split_nonempty p sep). by destruct (Split p sep).
Qed.

(** The last element of [Split s sep]. *)
Definition last_of (l : list string) : string := nth (length l - 1) l "".

Lemma last_of_app l x : last_of (l ++ [x]) = x.
Proof.
  unfold last_of. rewrite length_app. simpl.
  replace (length l + 1 - 1)%nat with (length l) by lia.
  by rewrite nth_middle.
Qed.

(** [Split] undone: every segment but the last is followed by [sep]. *)
Fixpoint join_dir (l : list string) (sep : ascii) : string :=
  match l with
  | [] => ""
  | seg :: rest => seg +:+ String sep (join_dir rest sep)
  end.

Lemma Split_join s sep :
  exists l x,
    Split s sep = l ++ [x] /\ Contains x sep = false /\
    s = join_dir l sep +:+ x.
Proof.
  induction s as [|ch s (l & x & Hsplit & Hx & Hs)]; simpl.
  - by exists [], "".
  - rewrite Hsplit. destruct (Ascii.eqb ch sep) eqn:Hch.
    + apply Ascii.eqb_eq in Hch as ->.
      exists ("" :: l), x. simpl. by rewrite <- Hs.
    + destruct l as [|y l]; simpl in *.
      * exists [], (String ch x). simpl. rewrite Hch, Hx. by subst.
      * exists (String ch y :: l), x. simpl. by rewrite <- Hs.
Qed.

Lemma join_dir_ends l sep :
  l <> [] -> exists p, join_dir l sep = p +:+ String sep "".
Proof.
  induction l as [|y l IH]; [done|]. intros _. simpl.
  destruct l as [|z l].
  - by exists y.
  - destruct IH as (p & Hp); [done|]. rewrite Hp.
    exists (y +:+ String sep p). by rewrite append_assoc.
Qed.

(** Every path is a directory part, empty or ending in the separator,
    followed by its last segment, which has no separator. *)
Lemma Split_last s sep :
  exists dir,
    s = dir +:+ last_of (Split s sep) /\
    (dir = "" \/ exists p, dir = p +:+ String sep "") /\
    Contains (last_of (Split s sep)) sep = false.
Proof.
  destruct (Split_join s sep) as (l & x & Hsplit & Hx & Hs).
  rewrite Hsplit, last_of_app. exists (join_dir l sep).
  split; [done|]. split; [|done].
  destruct l as [|y l]; [by left|]. right. by apply join_dir_ends.
Qed.

(** Conversely the decomposition determines the last segment. *)
Lemma Split_last_unique dir seg sep :
  (dir = "" \/ exists p, dir = p +:+ String sep "") ->
  Contains seg sep = false ->
  last_of (Split (dir +:+ seg) sep) = seg.
Proof.
  intros [->|(p & ->)] Hseg.
  - simpl. by rewrite Split_no_sep.
  - rewrite append_assoc. simpl.
    rewrite Split_append_sep, (Split_no_sep seg) by done.
    apply last_of_app.
Qed.

Lemma Contains_append a b ch :
  Contains (a +:+ b) ch = Contains a ch || Contains b ch.
Proof.
  induction a as [|x a IH]; simpl; [done|]. by rewrite IH, orb_assoc.
Qed.

Lemma LastIndex_absent s ch : Contains s ch = false -> LastIndex s ch = (-1)%Z.
Proof.
  induction s as [|x s IH]; simpl; [done|].
  intros [Hx Hs]%orb_false_iff. by rewrite (IH Hs), Hx.
Qed.

Lemma LastIndex_append stem ext ch :
  Contains ext ch = false ->
  LastIndex (stem +:+ String ch ext) ch = Z.of_nat (String.length stem).
Proof.
  intros Hext. induction stem as [|x stem IH]; simpl.
  - by rewrite (LastIndex_absent _ _ Hext), Ascii.eqb_refl.
  - rewrite IH. destruct (0 <=? Z.of_nat (String.length stem))%Z eqn:H0; lia.
Qed.

Lemma slice_from_append stem ext ch :
  slice_from (stem +:+ String ch ext) (Z.of_nat (String.length stem) + 1) = ext.
Proof.
  unfold slice_from. rewrite length_append. simpl String.length.
  replace (Z.to_nat (Z.of_nat (String.length stem) + 1))
    with (String.length (stem +:+ String ch "") + 0)%nat
    by (rewrite length_append; simpl; lia).
  replace (stem +:+ String ch ext) with ((stem +:+ String ch "") +:+ ext)
    by (by rewrite append_assoc).
  rewrite substring_skip.
  replace (String.length stem + S (String.length ext)
           - (String.length (stem +:+ String ch "") + 0))%nat
    with (String.length ext) by (rewrite length_append; simpl; lia).
  apply substring_all.
Qed.

(** A segment that contains [ch] is a stem, [ch], and an extension
    without [ch]: the text after the last [ch]. *)
Lemma LastIndex_split seg ch :
  Contains seg ch = true ->
  exists stem,
    seg = stem +:+ String ch (slice_from seg (LastIndex seg ch + 1)) /\
    Contains (slice_from seg (LastIndex seg ch + 1)) ch = false.
Proof.
  induction seg as [|x seg IH]; intros Hc; [done|].
  simpl in Hc. destruct (Contains seg ch) eqn:Hin.
  - clear Hc. destruct IH as (stem & Hseg & Hext); [done|].
    exists (String x stem).
    assert (Hidx : (0 <= LastIndex seg ch)%Z).
    { rewrite Hseg. rewrite LastIndex_append by done. lia. }
    assert (Hs : slice_from (String x seg) (LastIndex (String x seg) ch + 1)
                 = slice_from seg (LastIndex seg ch + 1)).
    { simpl LastIndex. destruct (0 <=? LastIndex seg ch)%Z eqn:H0; [|lia].
      unfold slice_from. simpl String.length.
      replace (Z.to_nat (LastIndex seg ch + 1 + 1))
        with (S (Z.to_nat (LastIndex seg ch + 1))) by lia.
      simpl. done. }
    rewrite Hs. split; [|done]. simpl. by rewrite <- Hseg.
  - rewrite orb_false_r in Hc. apply Ascii.eqb_eq in Hc as ->.
    exists "". simpl LastIndex. rewrite (LastIndex_absent _ _ Hin).
    simpl. rewrite Ascii.eqb_refl. unfold slice_from. simpl.
    rewrite Nat.sub_0_r, substring_all. done.
Qed.

End GoStringsFacts.

(** ** The crawl loop *)

Section CrawlFacts.
Context `{E : Env}.
Variable c : Checker.
Variable maxDepth : Z.
Variable baseURLParsed : URL.

Local Abbreviation crawl := (crawl c maxDepth baseURLParsed).
Local Abbreviation crawl_links := (crawl_links c).

(** One call of [crawl], unfolded. *)
Lemma crawl_unfold fuel u d st :
  crawl (S fuel) u d st =
  if (maxDepth <? d)%Z then Some st
  else if map_get (visited st) u then Some st
  else
    let st := record_url u st in
    if (d =? maxDepth)%Z then Some st
    else
      match url_Parse u with
      | Err _ => Some st
      | Ok parsed =>
          let '(links, reqs) := extractLinksFromPage c u parsed baseURLParsed in
          let st := log_requests reqs st in
          match links with
          | Err _ => Some st
          | Ok links => crawl_links (crawl fuel) links d st
          end
      end.
Proof. reflexivity. Qed.

Lemma map_get_empty u : map_get ∅ u = false.
Proof. unfold map_get. by rewrite lookup_empty. Qed.

Lemma map_get_insert (m : gmap string bool) u x :
  map_get (<[u := true]> m) x = if decide (u = x) then true else map_get m x.
Proof. unfold map_get. rewrite lookup_insert. by case_decide. Qed.

(** The loop over the links of a page keeps whatever every call it makes
    keeps. *)
Lemma crawl_links_preserves (I : CrawlState -> Prop) rec links d st st' :
  (forall l s s',
      l ∈ links -> shouldExclude c l = false ->
      map_get (visited s) l = false ->
      I s -> rec l (d + 1)%Z s = Some s' -> I s') ->
  I st -> crawl_links rec links d st = Some st' -> I st'.
Proof.
  revert st. induction links as [|l rest IH]; intros st Hrec HI Hrun;
    simpl in Hrun.
  - congruence.
  - destruct (map_get (visited st) l) eqn:Hv; simpl in Hrun.
    + eapply IH; eauto. intros; eapply Hrec; eauto. by right.
    + destruct (shouldExclude c l) eqn:Hx; simpl in Hrun.
      * eapply IH; eauto. intros; eapply Hrec; eauto. by right.
      * destruct (rec l (d + 1)%Z st) as [st1|] eqn:Hcall; [|done].
        eapply IH; [| |exact Hrun].
        -- intros; eapply Hrec; eauto. by right.
        -- eapply Hrec; eauto. by left.
Qed.

(** An invariant of the state that survives recording a new URL allowed
    by [A] and logging requests survives a whole call of [crawl] on a
    URL allowed by [A], provided every URL that passes the exclusion
    test is allowed. *)
Lemma crawl_preserves (I : CrawlState -> Prop) (A : string -> Prop) :
  (forall u st, I st -> A u -> map_get (visited st) u = false ->
                I (record_url u st)) ->
  (forall reqs st, I st -> I (log_requests reqs st)) ->
  (forall u, shouldExclude c u = false -> A u) ->
  forall fuel u d st st',
    A u -> I st -> crawl fuel u d st = Some st' -> I st'.
Proof.
  intros Hrecord Hlog Hallowed.
  induction fuel as [|fuel IH]; intros u d st st' HA HI Hrun; [done|].
  simpl in Hrun.
  destruct (maxDepth <? d)%Z; [congruence|].
  destruct (map_get (visited st) u) eqn:Hv; [congruence|].
  destruct (d =? maxDepth)%Z; [inversion Hrun; subst; eauto|].
  destruct (url_Parse u) as [parsed|]; [|inversion Hrun; subst; eauto].
  destruct (extractLinksFromPage c u parsed baseURLParsed) as [[links|] reqs];
    [|inversion Hrun; subst; eauto].
  eapply crawl_links_preserves; [| |exact Hrun]; eauto.
Qed.

(** *** Termination *)

Lemma crawl_links_total rec links d st :
  (forall l s, is_Some (rec l (d + 1)%Z s)) ->
  is_Some (crawl_links rec links d st).
Proof.
  intros Hrec. revert st.
  induction links as [|l rest IH]; intros st; simpl; [by eexists|].
  destruct (negb (map_get (visited st) l) && negb (shouldExclude c l)); [|done].
  destruct (Hrec l st) as [st1 ->]. done.
Qed.

Lemma crawl_total fuel u d st :
  (Z.to_nat (maxDepth - d) < fuel)%nat -> is_Some (crawl fuel u d st).
Proof.
  revert u d st. induction fuel as [|fuel IH]; intros u d st Hfuel; [lia|].
  simpl.
  destruct (maxDepth <? d)%Z eqn:Hgt; [by eexists|].
  destruct (map_get (visited st) u); [by eexists|].
  destruct (d =? maxDepth)%Z eqn:Heq; [by eexists|].
  destruct (url_Parse u) as [parsed|]; [|by eexists].
  destruct (extractLinksFromPage c u parsed baseURLParsed) as [[links|] reqs];
    [|by eexists].
  apply crawl_links_total. intros l s. apply IH. lia.
Qed.

(** More fuel does not change a result. *)
Lemma crawl_links_mono (rec1 rec2 : string -> Z -> CrawlState -> option CrawlState)
    links d st st' :
  (forall l k s s', rec1 l k s = Some s' -> rec2 l k s = Some s') ->
  crawl_links rec1 links d st = Some st' ->
  crawl_links rec2 links d st = Some st'.
Proof.
  intros Hrec. revert st.
  induction links as [|l rest IH]; intros st; simpl; [done|].
  destruct (negb (map_get (visited st) l) && negb (shouldExclude c l)); [|auto].
  destruct (rec1 l (d + 1)%Z st) as [st1|] eqn:H1; [|done].
  rewrite (Hrec _ _ _ _ H1). auto.
Qed.

Lemma crawl_fuel_mono fuel fuel' u d st st' :
  crawl fuel u d st = Some st' -> (fuel <= fuel')%nat ->
  crawl fuel' u d st = Some st'.
Proof.
  revert fuel' u d st st'.
  induction fuel as [|fuel IH]; intros fuel' u d st st' Hrun Hle; [done|].
  destruct fuel' as [|fuel']; [lia|].
  simpl in *.
  destruct (maxDepth <? d)%Z; [done|].
  destruct (map_get (visited st) u); [done|].
  destruct (d =? maxDepth)%Z; [done|].
  destruct (url_Parse u) as [parsed|]; [|done].
  destruct (extractLinksFromPage c u parsed baseURLParsed) as [[links|] reqs];
    [|done].
  eapply crawl_links_mono; [|exact Hrun].
  intros; eapply IH; eauto. lia.
Qed.

End CrawlFacts.

(** ** What a crawl records *)

Section CrawlInvariants.
Context `{E : Env}.
Variable c : Checker.
Variable maxDepth : Z.
Variable baseURLParsed : URL.

Local Abbreviation crawl := (crawl c maxDepth baseURLParsed).

(** [visited] is the set of the elements of [urls], which are distinct. *)
Definition consistent (st : CrawlState) : Prop :=
  NoDup (urls st) /\
  forall u, map_get (visited st) u = true <-> u ∈ urls st.

Lemma consistent_empty : consistent empty_state.
Proof.
  split; [constructor|]. intros u. unfold map_get; simpl.
  rewrite lookup_empty; simpl. split; [done|]. by intros ?%elem_of_nil.
Qed.

Lemma consistent_record u st :
  consistent st -> map_get (visited st) u = false ->
  consistent (record_url u st).
Proof.
  intros [Hnd Hv] Hfresh. split; simpl.
  - apply NoDup_app. split; [done|]. split; [|apply NoDup_singleton].
    intros x Hx ->%list_elem_of_singleton.
    apply Hv in Hx. congruence.
  - intros x. rewrite map_get_insert, elem_of_app, list_elem_of_singleton.
    case_decide; subst; [intuition|].
    rewrite Hv. intuition congruence.
Qed.

Lemma crawl_consistent fuel u d st st' :
  consistent st -> crawl fuel u d st = Some st' -> consistent st'.
Proof.
  intros Hst Hrun.
  eapply (crawl_preserves c maxDepth baseURLParsed consistent (fun _ => True));
    eauto using consistent_record.
Qed.

(** A visited URL stays visited. *)
Lemma crawl_keeps_visited fuel u d st st' x :
  map_get (visited st) x = true -> crawl fuel u d st = Some st' ->
  map_get (visited st') x = true.
Proof.
  intros Hx Hrun.
  eapply (crawl_preserves c maxDepth baseURLParsed
            (fun s => map_get (visited s) x = true) (fun _ => True));
    eauto.
  intros v s Hs _ _. simpl. rewrite map_get_insert. by case_decide.
Qed.

(** Within the depth bound, the URL [crawl] is called on is visited
    afterwards. *)
Lemma crawl_visits_current fuel u d st st' :
  (d <= maxDepth)%Z -> crawl fuel u d st = Some st' ->
  map_get (visited st') u = true.
Proof.
  intros Hd Hrun. destruct fuel as [|fuel]; [done|].
  pose proof Hrun as Hrun0.
  simpl in Hrun.
  destruct (maxDepth <? d)%Z eqn:Hgt; [lia|].
  destruct (map_get (visited st) u) eqn:Hv; [congruence|].
  assert (Hrec : map_get (visited (record_url u st)) u = true).
  { simpl. rewrite map_get_insert. by case_decide. }
  destruct (d =? maxDepth)%Z; [by inversion Hrun; subst|].
  destruct (url_Parse u) as [parsed|]; [|by inversion Hrun; subst].
  destruct (extractLinksFromPage c u parsed baseURLParsed) as [[links|] reqs];
    [|by inversion Hrun; subst].
  eapply (crawl_links_preserves c
            (fun s => map_get (visited s) u = true)); [| |exact Hrun]; [|done].
  intros l s s' _ _ _ Hs Hcall. eapply crawl_keeps_visited; eauto.
Qed.

(** After the loop over [links], every link that is not excluded is
    visited. *)
Lemma crawl_links_visits_all fuel links d st st' l :
  (d + 1 <= maxDepth)%Z ->
  crawl_links c (crawl fuel) links d st = Some st' ->
  l ∈ links -> shouldExclude c l = false ->
  map_get (visited st') l = true.
Proof.
  intros Hd. revert st.
  induction links as [|k rest IH]; intros st Hrun Hin Hx;
    [by apply elem_of_nil in Hin|].
  assert (Hkeep : forall s, map_get (visited s) l = true ->
            crawl_links c (crawl fuel) rest d s = Some st' ->
            map_get (visited st') l = true).
  { intros s Hs Hr.
    eapply (crawl_links_preserves c
              (fun s => map_get (visited s) l = true)); [| |exact Hr]; [|done].
    intros; eapply crawl_keeps_visited; eauto. }
  simpl in Hrun.
  apply elem_of_cons in Hin as [->|Hin].
  - rewrite Hx in Hrun. destruct (map_get (visited st) k) eqn:Hv; simpl in Hrun.
    + eauto.
    + destruct (crawl fuel k (d + 1)%Z st) as [st1|] eqn:Hcall; [|done].
      eapply Hkeep; [|exact Hrun]. eapply crawl_visits_current; eauto.
  - destruct (negb (map_get (visited st) k) && negb (shouldExclude c k)); eauto.
    destruct (crawl fuel k (d + 1)%Z st) as [st1|]; [|done]. eauto.
Qed.

End CrawlInvariants.

(** ** CrawlWebsite *)

Section CrawlWebsiteFacts.
Context `{E : Env}.
Variable c : Checker.

(** The fuel [CrawlWebsite] starts with is never used up. *)
Lemma CrawlWebsite_total seed N : is_Some (CrawlWebsite c seed N).
Proof.
  unfold CrawlWebsite. destruct (url_Parse seed) as [parsed|]; [|by eexists].
  destruct (crawl_total c N parsed (crawl_fuel N) seed 0 empty_state) as [st ->];
    [unfold crawl_fuel; lia | by eexists].
Qed.

Lemma CrawlWebsite_ok seed parsed N :
  url_Parse seed = Ok parsed ->
  exists st,
    crawl c N parsed (crawl_fuel N) seed 0 empty_state = Some st /\
    CrawlWebsite c seed N = Some (Ok (urls st), requests st).
Proof.
  intros Hparse. unfold CrawlWebsite. rewrite Hparse.
  destruct (crawl_total c N parsed (crawl_fuel N) seed 0 empty_state)
    as [st Hst]; [unfold crawl_fuel; lia|].
  rewrite Hst. by exists st.
Qed.





End CrawlWebsiteFacts.

(** C4. For every seed URL that parses, every site (cyclic or not) and
    every depth bound, [CrawlWebsite] terminates: the fuel it starts with is
    enough, and any larger amount gives the same state.  The sequence it
    returns has no duplicates.  A URL is marked visited before its
    children are explored: the loop over the links of a page starts from a
    state in which the page is visited.  (The bound need not be
    non-negative.) *)
Theorem C4_crawl_terminates_without_duplicates
    `{E : Env} (c : Checker) (seed : string) (parsed : URL) (N : Z) :
  url_Parse seed = Ok parsed ->
  (exists st,
     CrawlWebsite c seed N = Some (Ok (urls st), requests st) /\
     NoDup (urls st) /\
     forall fuel, (crawl_fuel N <= fuel)%nat ->
                  crawl c N parsed fuel seed 0 empty_state = Some st) /\
  (forall fuel page pageParsed d st links reqs,
     map_get (visited st) page = false -> (d < N)%Z ->
     url_Parse page = Ok pageParsed ->
     extractLinksFromPage c page pageParsed parsed = (Ok links, reqs) ->
     exists st1,
       map_get (visited st1) page = true /\
       crawl c N parsed (S fuel) page d st
       = crawl_links c (crawl c N parsed fuel) links d st1).
Proof.
  intros Hparse. split.
  - destruct (CrawlWebsite_ok c seed parsed N Hparse) as (st & Hst & Hrun).
    exists st. split; [done|]. split.
    + eapply crawl_consistent in Hst; [apply Hst | apply consistent_empty].
    + intros fuel Hle. eapply crawl_fuel_mono; eauto.
  - intros fuel page pageParsed d st links reqs Hv Hd Hpage Hlinks.
    exists (log_requests reqs (record_url page st)). split.
    + simpl. rewrite map_get_insert. by case_decide.
    + rewrite crawl_unfold, Hv. cbv zeta. rewrite Hpage, Hlinks.
      destruct (N <? d)%Z eqn:Hgt; [lia|].
      destruct (d =? N)%Z eqn:Heq; [lia|]. done.
Qed.

Lemma C4_witness :
  @url_Parse Fixture.env "http://h/a/"
  = Ok (Fixture.plain_URL "http" "h" "/a/") /\
  exists st,
    CrawlWebsite (Fixture.checker [] Fixture.cyclic_site) "http://h/a/" 5
    = Some (Ok (urls st), requests st) /\
    NoDup (urls st) /\
    forall fuel, (crawl_fuel 5 <= fuel)%nat ->
      crawl (Fixture.checker [] Fixture.cyclic_site) 5
            (Fixture.plain_URL "http" "h" "/a/") fuel "http://h/a/" 0 empty_state
      = Some st.
Proof.
  split; [reflexivity|].
  apply (proj1 (C4_crawl_terminates_without_duplicates
                  (Fixture.checker [] Fixture.cyclic_site) "http://h/a/"
                  (Fixture.plain_URL "http" "h" "/a/") 5 eq_refl)).
Defined.

(** C5. For every seed URL that parses, [CrawlWebsite(seed, 0)] returns
    exactly [[seed]] and issues no request at all: no link extraction is
    attempted, so the answer does not depend on whether the seed can be
    fetched. *)
Theorem C5_depth_zero_returns_seed
    `{E : Env} (c : Checker) (seed : string) (parsed : URL) :
  url_Parse seed = Ok parsed ->
  CrawlWebsite c seed 0 = Some (Ok [seed], []).
Proof.
  intros Hparse. unfold CrawlWebsite. rewrite Hparse. reflexivity.
Qed.

Lemma C5_witness :
  @url_Parse Fixture.env "http://h/a/"
  = Ok (Fixture.plain_URL "http" "h" "/a/") /\
  CrawlWebsite (Fixture.checker [] Fixture.unreachable) "http://h/a/" 0
  = Some (Ok ["http://h/a/"], []).
Proof.
  split; [reflexivity|].
  apply (C5_depth_zero_returns_seed (Fixture.checker [] Fixture.unreachable)
           "http://h/a/" (Fixture.plain_URL "http" "h" "/a/")).
  reflexivity.
Defined.



(** ** Exclusion *)

Section Exclusion.
Context `{E : Env}.
Variable c : Checker.

(** The loop of [GetURLsFromSitemap] is a filter. *)
Lemma sitemap_loop entries acc :
  fold_left (fun urls urlEntry =>
               if negb (shouldExclude c (Loc urlEntry))
               then urls ++ [Loc urlEntry] else urls) entries acc
  = acc ++ filter (fun u => shouldExclude c u = false) (map Loc entries).
Proof.
  revert acc. induction entries as [|e rest IH]; intros acc; simpl.
  - by rewrite app_nil_r.
  - rewrite IH, filter_cons. case_decide as Hx.
    + rewrite Hx; simpl. by rewrite <- app_assoc.
    + destruct (shouldExclude c (Loc e)); done.
Qed.

Lemma GetURLsFromSitemap_Ok sitemapURL urls reqs :
  GetURLsFromSitemap c sitemapURL = (Ok urls, reqs) ->
  exists sitemap,
    urls = filter (fun u => shouldExclude c u = false) (map Loc (URLs sitemap)).
Proof.
  unfold GetURLsFromSitemap, bind, client_Do, ret. intros Hrun.
  destruct (http_NewRequest "GET" sitemapURL) as [req|]; [|done].
  destruct (client c _) as [resp|]; [|done].
  destruct (negb (StatusCode resp =? 200)%Z); [done|].
  destruct (io_ReadAll (RespBody resp)) as [body|]; [|done].
  destruct (xml_Unmarshal body) as [sitemap|]; [|done].
  exists sitemap. rewrite sitemap_loop in Hrun. by inversion Hrun.
Qed.

(** Everything a crawl records, apart from its seed, passed the
    exclusion test. *)
Lemma crawl_records_allowed N baseURLParsed fuel seed st x :
  crawl c N baseURLParsed fuel seed 0 empty_state = Some st ->
  x ∈ urls st -> x = seed \/ shouldExclude c x = false.
Proof.
  intros Hrun.
  pose (A := fun u : string => u = seed \/ shouldExclude c u = false).
  pose (I := fun s : CrawlState => forall y, y ∈ urls s -> A y).
  cut (I st); [intros HI; apply HI|].
  eapply (crawl_preserves c N baseURLParsed I A); [| | | |..|exact Hrun].
  - intros u s Hs Hu _ y. simpl.
    rewrite elem_of_app, list_elem_of_singleton. intros [Hy| ->]; auto.
  - intros reqs s Hs. exact Hs.
  - intros u Hu. by right.
  - by left.
  - intros y Hy. by apply elem_of_nil in Hy.
Qed.

End Exclusion.

(** C3, as stated, fails on the seed: the seed is recorded without being
    tested against the exclude patterns. *)
Lemma C3_counterexample :
  exists urls reqs,
    CrawlWebsite (Fixture.checker ["/a/"] Fixture.cyclic_site) "http://h/a/" 1
    = Some (Ok urls, reqs) /\
    shouldExclude (Fixture.checker ["/a/"] Fixture.cyclic_site) "http://h/a/" = true /\
    "http://h/a/" ∈ urls.
Proof.
  exists ["http://h/a/"; "http://h/b/"]. eexists.
  split; [vm_compute; reflexivity|]. split; [reflexivity|]. by left.
Qed.

(** C3, amended. A URL that matches an exclude pattern never appears in
    the sequence returned by [GetURLsFromSitemap], and appears in the
    sequence returned by [CrawlWebsite] only if it is the seed URL. *)
Theorem C3_excluded_urls_absent_except_seed
    `{E : Env} (c : Checker) (u : string) :
  shouldExclude c u = true ->
  (forall sitemapURL urls reqs,
     GetURLsFromSitemap c sitemapURL = (Ok urls, reqs) -> u ∉ urls) /\
  (forall seed N urls reqs,
     CrawlWebsite c seed N = Some (Ok urls, reqs) -> u ∈ urls -> u = seed).
Proof.
  intros Hx. split.
  - intros sitemapURL urls reqs Hrun Hin.
    apply GetURLsFromSitemap_Ok in Hrun as (sitemap & ->).
    apply list_elem_of_filter in Hin as [Hu _]. congruence.
  - intros seed N urls reqs Hrun Hin. unfold CrawlWebsite in Hrun.
    destruct (url_Parse seed) as [parsed|]; [|done].
    destruct (crawl c N parsed (crawl_fuel N) seed 0 empty_state) as [st|] eqn:Hst;
      [|done].
    inversion Hrun; subst.
    destruct (crawl_records_allowed c N parsed _ seed st u Hst Hin); [done|congruence].
Qed.

Lemma C3_witness :
  shouldExclude (Fixture.checker ["private"] Fixture.sitemap_site)
                "http://h/private/x" = true /\
  (forall sitemapURL urls reqs,
     GetURLsFromSitemap (Fixture.checker ["private"] Fixture.sitemap_site) sitemapURL
     = (Ok urls, reqs) -> "http://h/private/x" ∉ urls) /\
  (forall seed N urls reqs,
     CrawlWebsite (Fixture.checker ["private"] Fixture.sitemap_site) seed N
     = Some (Ok urls, reqs) ->
     "http://h/private/x" ∈ urls -> "http://h/private/x" = seed).
Proof.
  split; [reflexivity|].
  apply (C3_excluded_urls_absent_except_seed
           (Fixture.checker ["private"] Fixture.sitemap_site) "http://h/private/x").
  reflexivity.
Defined.

(** ** Depth bound *)

Section DepthBound.
Context `{E : Env}.
Variable c : Checker.

(** At the depth bound a URL is recorded and nothing else happens. *)
Lemma crawl_at_bound N baseURLParsed fuel u st :
  map_get (visited st) u = false ->
  crawl c N baseURLParsed (S fuel) u N st = Some (record_url u st).
Proof.
  intros Hv. rewrite crawl_unfold, Z.ltb_irrefl, Hv. cbv zeta.
  by rewrite Z.eqb_refl.
Qed.

(** With bound 1 the result is the seed and links of the seed's page
    that are not excluded. *)
Lemma crawl_one_records baseURLParsed seed st links reqs x :
  url_Parse seed = Ok baseURLParsed ->
  extractLinksFromPage c seed baseURLParsed baseURLParsed = (Ok links, reqs) ->
  crawl c 1 baseURLParsed 2 seed 0 empty_state = Some st ->
  x ∈ urls st -> x = seed \/ (x ∈ links /\ shouldExclude c x = false).
Proof.
  intros Hparse Hlinks Hrun.
  rewrite crawl_unfold in Hrun. cbv zeta in Hrun. simpl visited in Hrun.
  rewrite map_get_empty in Hrun.
  change (1 <? 0)%Z with false in Hrun. change (0 =? 1)%Z with false in Hrun.
  cbv iota in Hrun. rewrite Hparse, Hlinks in Hrun.
  pose (I := fun s : CrawlState =>
               forall y, y ∈ urls s ->
                         y = seed \/ (y ∈ links /\ shouldExclude c y = false)).
  cut (I st); [intros HI; apply HI|].
  eapply (crawl_links_preserves c I); [| |exact Hrun].
  - intros l s s' Hl Hx Hv Hs Hcall.
    change (0 + 1)%Z with 1%Z in Hcall.
    rewrite crawl_at_bound in Hcall by done. inversion Hcall; subst.
    intros y. simpl. rewrite elem_of_app, list_elem_of_singleton.
    intros [Hy| ->]; auto.
  - intros y. simpl. rewrite list_elem_of_singleton. auto.
Qed.

(** With a bound of at least 1 the result contains every link of the
    seed's page that is not excluded. *)
Lemma crawl_reaches_links M baseURLParsed seed st links reqs x :
  (1 <= M)%Z ->
  url_Parse seed = Ok baseURLParsed ->
  extractLinksFromPage c seed baseURLParsed baseURLParsed = (Ok links, reqs) ->
  crawl c M baseURLParsed (crawl_fuel M) seed 0 empty_state = Some st ->
  x ∈ links -> shouldExclude c x = false -> x ∈ urls st.
Proof.
  intros HM Hparse Hlinks Hrun Hin Hx.
  pose proof (crawl_consistent c M baseURLParsed _ _ _ _ _ consistent_empty Hrun)
    as [_ Hvis].
  apply Hvis. clear Hvis.
  unfold crawl_fuel in Hrun.
  rewrite crawl_unfold in Hrun. cbv zeta in Hrun. simpl visited in Hrun.
  rewrite map_get_empty in Hrun.
  destruct (M <? 0)%Z eqn:Hlt; [lia|].
  destruct (0 =? M)%Z eqn:Heq; [lia|].
  rewrite Hparse, Hlinks in Hrun.
  eapply crawl_links_visits_all; [|exact Hrun|done|done]. lia.
Qed.

Lemma crawl_records_seed M baseURLParsed fuel seed st :
  (0 <= M)%Z ->
  crawl c M baseURLParsed fuel seed 0 empty_state = Some st ->
  seed ∈ urls st.
Proof.
  intros HM Hrun.
  pose proof (crawl_consistent c M baseURLParsed _ _ _ _ _ consistent_empty Hrun)
    as [_ Hvis].
  apply Hvis. eapply crawl_visits_current; eauto.
Qed.

End DepthBound.

(** C2. The claim fails on the code from depth 2 to depth 3, and the code
    is at fault: [crawl] marks a URL visited at whatever depth it first
    meets it, also at the depth bound, where its links are not read.  On
    the site [a -> b, c], [b -> e], [e -> c], [c -> d] the crawl of depth 2
    reaches [d] through [c].  The crawl of depth 3 first meets [c] at the
    bound, below [e], records it without reading its links, and skips it as
    visited when it comes back to the links of [a]: the page [d], two
    links from the seed, is lost although the bound is 3. *)
Theorem C2_deeper_crawl_loses_a_page :
  exists urls2 reqs2 urls3 reqs3,
    CrawlWebsite (Fixture.checker [] Fixture.detour_site) "http://h/a/" 2
    = Some (Ok urls2, reqs2) /\
    CrawlWebsite (Fixture.checker [] Fixture.detour_site) "http://h/a/" 3
    = Some (Ok urls3, reqs3) /\
    urls2 = ["http://h/a/"; "http://h/b/"; "http://h/e/"; "http://h/c/";
             "http://h/d/"] /\
    urls3 = ["http://h/a/"; "http://h/b/"; "http://h/e/"; "http://h/c/"] /\
    "http://h/d/" ∈ urls2 /\ "http://h/d/" ∉ urls3.
Proof.
  exists ["http://h/a/"; "http://h/b/"; "http://h/e/"; "http://h/c/"; "http://h/d/"].
  eexists.
  exists ["http://h/a/"; "http://h/b/"; "http://h/e/"; "http://h/c/"].
  eexists.
  split; [vm_compute; reflexivity|]. split; [vm_compute; reflexivity|].
  split; [reflexivity|]. split; [reflexivity|]. split.
  - rewrite !elem_of_cons. tauto.
  - rewrite !elem_of_cons, elem_of_nil. intros H.
    repeat (destruct H as [H|H]; [discriminate H|]). done.
Qed.

(** What does hold of the depth bound: the results for the bounds 0 and 1
    are included in the result for every larger bound. *)
Lemma crawl_included_from_depth_one
    `{E : Env} (c : Checker) (seed : string) (N M : Z)
    (urlsN : list string) (reqsN : list Request) :
  (0 <= N <= 1)%Z -> (N <= M)%Z ->
  CrawlWebsite c seed N = Some (Ok urlsN, reqsN) ->
  exists urlsM reqsM,
    CrawlWebsite c seed M = Some (Ok urlsM, reqsM) /\ urlsN ⊆ urlsM.
Proof.
  intros HN HM HrunN.
  destruct (url_Parse seed) as [parsed|e] eqn:Hparse;
    [|unfold CrawlWebsite in HrunN; by rewrite Hparse in HrunN].
  destruct (CrawlWebsite_ok c seed parsed M Hparse) as (stM & HstM & HrunM).
  exists (urls stM), (requests stM). split; [done|].
  assert (Hseed : seed ∈ urls stM) by (eapply crawl_records_seed; [|eauto]; lia).
  unfold CrawlWebsite in HrunN. rewrite Hparse in HrunN.
  destruct (crawl c N parsed (crawl_fuel N) seed 0 empty_state) as [stN|] eqn:HstN;
    [|done].
  inversion HrunN; subst urlsN reqsN. clear HrunN.
  assert (N = 0 \/ N = 1)%Z as [-> | ->] by lia.
  - change (crawl_fuel 0) with 1%nat in HstN.
    rewrite crawl_at_bound in HstN by apply map_get_empty.
    inversion HstN; subst stN. simpl.
    intros x ->%list_elem_of_singleton. done.
  - destruct (extractLinksFromPage c seed parsed parsed) as [[links|e] reqs] eqn:Hlinks.
    + intros x Hx.
      destruct (crawl_one_records c parsed seed stN links reqs x Hparse Hlinks HstN Hx)
        as [-> | [Hin Hex]]; [done|].
      eapply crawl_reaches_links; eauto.
    + change (crawl_fuel 1) with 2%nat in HstN.
      rewrite crawl_unfold in HstN. cbv zeta in HstN. simpl visited in HstN.
      rewrite map_get_empty in HstN.
      change (1 <? 0)%Z with false in HstN. change (0 =? 1)%Z with false in HstN.
      cbv iota in HstN. rewrite Hparse, Hlinks in HstN.
      inversion HstN; subst stN. simpl.
      intros x ->%list_elem_of_singleton. done.
Qed.

(** ** The base-URL resolver *)

Section Resolver.
Context `{E : Env}.
Import GoStrings.

(** The parent directory of [dir ++ seg]. *)
Lemma parent_directory_split u dir seg :
  Path u = dir +:+ seg ->
  (dir = "" \/ exists p, dir = p +:+ "/") ->
  parent_directory u seg = set_Path u (if String.eqb dir "" then "/" else dir).
Proof.
  intros Hpath Hdir. unfold parent_directory.
  rewrite Hpath, TrimSuffix_append. cbn [Path set_Path].
  destruct Hdir as [->|(p & ->)].
  - reflexivity.
  - rewrite HasSuffix_append. cbn [negb].
    replace (String.eqb (p +:+ "/") "") with false; [done|].
    symmetry. apply String.eqb_neq. by destruct p.
Qed.

(** The extension test of the program, in terms of the path: the path is
    a directory part, a stem without slash, a dot and an extension
    without dot or slash that lowers to a key of [fileExtensions]. *)
Lemma extension_stage_split u dir stem ext :
  Path u = dir +:+ stem +:+ "." +:+ ext ->
  (dir = "" \/ exists p, dir = p +:+ "/") ->
  Contains stem "/" = false -> Contains ext "/" = false ->
  Contains ext "." = false ->
  extension_stage u =
  if map_get fileExtensions (strings_ToLower ext)
  then Some (set_Path u (if String.eqb dir "" then "/" else dir))
  else None.
Proof.
  intros Hpath Hdir Hstem Hext Hdot. unfold extension_stage.
  assert (Hlen : (0 <? length (Split (Path u) "/"))%nat = true).
  { pose proof (Split_nonempty (Path u) "/").
    by destruct (Split (Path u) "/"). }
  rewrite Hlen.
  change (nth (length (Split (Path u) "/") - 1) (Split (Path u) "/") "")
    with (last_of (Split (Path u) "/")).
  assert (Hseg : Contains (stem +:+ "." +:+ ext) "/" = false).
  { rewrite Contains_append, Hstem. simpl. by rewrite Hext. }
  assert (Hlast : last_of (Split (Path u) "/") = stem +:+ "." +:+ ext)
    by (rewrite Hpath; by apply Split_last_unique).
  rewrite Hlast.
  assert (Hhas : Contains (stem +:+ "." +:+ ext) "." = true).
  { rewrite Contains_append. simpl. by rewrite orb_true_r. }
  rewrite Hhas.
  change (stem +:+ "." +:+ ext) with (stem +:+ String "." ext).
  rewrite LastIndex_append, slice_from_append by done.
  destruct (map_get fileExtensions (strings_ToLower ext)); [|done].
  by rewrite (parent_directory_split u dir (stem +:+ String "." ext) Hpath Hdir).
Qed.

Lemma recognized_extension_spec u :
  has_recognized_extension u = true <->
  exists dir stem ext,
    Path u = dir +:+ stem +:+ "." +:+ ext /\
    (dir = "" \/ exists p, dir = p +:+ "/") /\
    Contains stem "/" = false /\ Contains ext "/" = false /\
    Contains ext "." = false /\
    map_get fileExtensions (strings_ToLower ext) = true.
Proof.
  unfold has_recognized_extension. split.
  - destruct (Split_last (Path u) "/") as (dir & Hpath & Hdir & Hseg).
    unfold extension_stage.
    destruct (0 <? length (Split (Path u) "/"))%nat; [|done].
    change (nth (length (Split (Path u) "/") - 1) (Split (Path u) "/") "")
      with (last_of (Split (Path u) "/")).
    set (seg := last_of (Split (Path u) "/")) in *.
    destruct (Contains seg ".") eqn:Hdot; [|done].
    destruct (LastIndex_split seg "." Hdot) as (stem & Hsplit & Hext).
    set (ext := slice_from seg (LastIndex seg "." + 1)) in *.
    destruct (map_get fileExtensions (strings_ToLower ext)) eqn:Hrec; [|done].
    intros _. exists dir, stem, ext.
    rewrite Hsplit, Contains_append in Hseg.
    apply orb_false_iff in Hseg as [Hs1 Hs2]. simpl in Hs2.
    repeat split; try done. by rewrite Hpath, Hsplit.
  - intros (dir & stem & ext & Hpath & Hdir & Hstem & Hext & Hdot & Hrec).
    by rewrite (extension_stage_split u dir stem ext), Hrec.
Qed.

(** A path with an extension does not end in a slash. *)
Lemma extension_no_trailing_slash path dir stem ext :
  path = dir +:+ stem +:+ "." +:+ ext ->
  (dir = "" \/ exists p, dir = p +:+ "/") ->
  Contains stem "/" = false -> Contains ext "/" = false ->
  HasSuffix path "/" = false.
Proof.
  intros Hpath Hdir Hstem Hext.
  destruct (HasSuffix path "/") eqn:Hs; [|done]. exfalso.
  apply HasSuffix_inv in Hs as (p & Hp).
  assert (H1 : last_of (Split path "/") = "").
  { rewrite Hp, <- (append_nil_r (p +:+ "/")).
    apply Split_last_unique; [|done]. right. by exists p. }
  assert (H2 : last_of (Split path "/") = stem +:+ "." +:+ ext).
  { rewrite Hpath. apply Split_last_unique; [done|].
    rewrite Contains_append, Hstem. simpl. by rewrite Hext. }
  rewrite H1 in H2. by destruct stem.
Qed.

Variable c : Checker.

(** The ways the probe fails. *)
Lemma isFileByContentType_fails urlStr req :
  http_NewRequest "HEAD" urlStr = Ok req ->
  let sent := set_UserAgent req (UserAgent (config c)) in
  (is_Err (client c sent) = true \/
   exists resp, client c sent = Ok resp /\
     ((400 <= StatusCode resp)%Z \/
      Header_Get (Header resp) "Content-Type" = "")) ->
  exists e, isFileByContentType c urlStr = (Err e, [sent]).
Proof.
  intros Hreq sent Hcase. unfold isFileByContentType. rewrite Hreq.
  fold sent. unfold bind, client_Do, ret.
  destruct Hcase as [Hdo|(resp & Hdo & Hresp)].
  - destruct (client c sent); [done|]. by eexists.
  - rewrite Hdo. destruct (400 <=? StatusCode resp)%Z eqn:Hs; simpl.
    + by eexists.
    + destruct Hresp as [Hge| ->]; [lia|]. simpl. by eexists.
Qed.

End Resolver.

(** C7. For every URL whose path is a directory part (empty or ending in a
    slash) followed by a last segment [stem.ext], where [ext] is the text
    after the final dot and lowers to a recognized extension,
    [getResolveBaseURL] returns the URL with the last segment removed and
    the path ending in a slash (the directory part, or ["/"] when it is
    empty), every other field unchanged, and issues no request.  Such a
    path never ends in a slash. *)
Theorem C7_recognized_extension_gives_parent_directory
    `{E : Env} (c : Checker) (u : URL) (dir stem ext : string) :
  Path u = dir +:+ stem +:+ "." +:+ ext ->
  (dir = "" \/ exists p, dir = p +:+ "/") ->
  GoStrings.Contains stem "/" = false ->
  GoStrings.Contains ext "/" = false ->
  GoStrings.Contains ext "." = false ->
  map_get fileExtensions (strings_ToLower ext) = true ->
  GoStrings.HasSuffix (Path u) "/" = false /\
  getResolveBaseURL c u
  = (set_Path u (if String.eqb dir "" then "/" else dir), []).
Proof.
  intros Hpath Hdir Hstem Hext Hdot Hrec.
  assert (Hslash : GoStrings.HasSuffix (Path u) "/" = false)
    by (eapply extension_no_trailing_slash; eauto).
  split; [done|].
  unfold getResolveBaseURL. rewrite Hslash.
  by rewrite (extension_stage_split u dir stem ext), Hrec.
Qed.

Lemma C7_witness :
  GoStrings.HasSuffix "/docs/index.HTML" "/" = false /\
  getResolveBaseURL (Fixture.checker [] Fixture.unreachable)
                    (Fixture.plain_URL "http" "h" "/docs/index.HTML")
  = (Fixture.plain_URL "http" "h" "/docs/", []).
Proof.
  apply (C7_recognized_extension_gives_parent_directory
           (Fixture.checker [] Fixture.unreachable)
           (Fixture.plain_URL "http" "h" "/docs/index.HTML")
           "/docs/" "index" "HTML");
    [reflexivity | right; by exists "/docs" | reflexivity | reflexivity
    | reflexivity | reflexivity].
Defined.

(** C8. For every URL whose path does not end in a slash (so that the
    probe is reached) and has no recognized extension, if the Content-Type
    probe fails, for whatever reason, [getResolveBaseURL] returns the URL
    with a slash appended to its path and nothing else changed; the only
    requests are those of the probe, and no error exists in the result.
    A transport error, a status of 400 or more and a missing Content-Type
    header are such failures. *)
Theorem C8_failed_probe_falls_back_to_directory
    `{E : Env} (c : Checker) (u : URL) :
  GoStrings.HasSuffix (Path u) "/" = false ->
  has_recognized_extension u = false ->
  (is_Err (isFileByContentType c (url_String u)).1 = true ->
   getResolveBaseURL c u
   = (set_Path u (Path u +:+ "/"), (isFileByContentType c (url_String u)).2)) /\
  (forall req,
     http_NewRequest "HEAD" (url_String u) = Ok req ->
     let sent := set_UserAgent req (UserAgent (config c)) in
     is_Err (client c sent) = true \/
     (exists resp, client c sent = Ok resp /\
        ((400 <= StatusCode resp)%Z \/
         Header_Get (Header resp) "Content-Type" = "")) ->
     getResolveBaseURL c u = (set_Path u (Path u +:+ "/"), [sent])).
Proof.
  intros Hslash Hext.
  assert (Hstage : extension_stage u = None).
  { unfold has_recognized_extension in Hext. by destruct (extension_stage u). }
  assert (Hfall : is_Err (isFileByContentType c (url_String u)).1 = true ->
    getResolveBaseURL c u
    = (set_Path u (Path u +:+ "/"), (isFileByContentType c (url_String u)).2)).
  { intros Hfail. unfold getResolveBaseURL. rewrite Hslash, Hstage.
    unfold bind, ret.
    destruct (isFileByContentType c (url_String u)) as [[isFile|e] reqs];
      [done|]. simpl. by rewrite app_nil_r. }
  split; [done|].
  intros req Hreq sent Hcase.
  destruct (isFileByContentType_fails c (url_String u) req Hreq Hcase) as (e & He).
  rewrite Hfall; by rewrite He.
Qed.

Lemma C8_witness :
  GoStrings.HasSuffix "/docs/guide" "/" = false /\
  has_recognized_extension (E := Fixture.env)
    (Fixture.plain_URL "http" "h" "/docs/guide") = false /\
  is_Err (isFileByContentType (Fixture.checker [] Fixture.unreachable)
                              "http://h/docs/guide").1 = true /\
  getResolveBaseURL (Fixture.checker [] Fixture.unreachable)
                    (Fixture.plain_URL "http" "h" "/docs/guide")
  = (Fixture.plain_URL "http" "h" "/docs/guide/",
     [ {| Method := "HEAD"; ReqURL := "http://h/docs/guide";
          UserAgentHeader := "TestBot/1.0" |} ]).
Proof.
  split; [reflexivity|]. split; [reflexivity|]. split; [reflexivity|].
  apply (proj1 (C8_failed_probe_falls_back_to_directory
                  (Fixture.checker [] Fixture.unreachable)
                  (Fixture.plain_URL "http" "h" "/docs/guide")
                  eq_refl eq_refl)).
  reflexivity.
Defined.

(** ** The sitemap loader *)

Section SitemapFacts.
Context `{E : Env}.
Variable c : Checker.

Lemma GetURLsFromSitemap_success sitemapURL req resp body sitemap :
  http_NewRequest "GET" sitemapURL = Ok req ->
  client c (set_UserAgent req (UserAgent (config c))) = Ok resp ->
  StatusCode resp = 200%Z ->
  io_ReadAll (RespBody resp) = Ok body ->
  xml_Unmarshal body = Ok sitemap ->
  GetURLsFromSitemap c sitemapURL
  = (Ok (filter (fun u => shouldExclude c u = false) (map Loc (URLs sitemap))),
     [set_UserAgent req (UserAgent (config c))]).
Proof.
  intros Hreq Hdo Hstatus Hread Hxml.
  unfold GetURLsFromSitemap, bind, client_Do, ret.
  rewrite Hreq, Hdo, Hstatus, Hread, Hxml. simpl.
  by rewrite sitemap_loop.
Qed.

(** Filtering by exclusion keeps every occurrence of a URL that is not
    excluded. *)
Lemma filter_keeps_occurrences (u : string) (l : list string) :
  shouldExclude c u = false ->
  length (filter (eq u) (filter (fun v => shouldExclude c v = false) l))
  = length (filter (eq u) l).
Proof.
  intros Hu. induction l as [|v l IH]; [done|].
  rewrite (filter_cons _ v l). case_decide as Hv.
  - rewrite !filter_cons. case_decide; simpl; by rewrite IH.
  - rewrite (filter_cons (eq u) v l). case_decide; [congruence|done].
Qed.

End SitemapFacts.

(** C9. When the sitemap is fetched with status 200, read and decoded,
    [GetURLsFromSitemap] returns the [Loc] of the decoded entries, in their
    order, keeping exactly those that match no exclude pattern: nothing is
    parsed or validated, every occurrence of a URL that is not excluded is
    kept (no deduplication), and an entry whose [Loc] is the empty string
    (what the decoder leaves for a [url] element without [loc]) puts the
    empty string in the result unless a pattern matches it. *)
Theorem C9_sitemap_locs_verbatim
    `{E : Env} (c : Checker) (sitemapURL : string) (req : Request)
    (resp : Response) (body : string) (sitemap : Sitemap) :
  http_NewRequest "GET" sitemapURL = Ok req ->
  client c (set_UserAgent req (UserAgent (config c))) = Ok resp ->
  StatusCode resp = 200%Z ->
  io_ReadAll (RespBody resp) = Ok body ->
  xml_Unmarshal body = Ok sitemap ->
  let locs := map Loc (URLs sitemap) in
  let result := filter (fun u => shouldExclude c u = false) locs in
  GetURLsFromSitemap c sitemapURL
  = (Ok result, [set_UserAgent req (UserAgent (config c))]) /\
  (ExcludePatterns (config c) = [] -> result = locs) /\
  (forall u, shouldExclude c u = false ->
             length (filter (eq u) result) = length (filter (eq u) locs)) /\
  (shouldExclude c "" = false -> mkUrlEntry "" ∈ URLs sitemap -> "" ∈ result).
Proof.
  intros Hreq Hdo Hstatus Hread Hxml locs result.
  split; [by eapply GetURLsFromSitemap_success|].
  split; [|split].
  - intros Hnone. subst result. unfold shouldExclude. rewrite Hnone. simpl.
    induction locs as [|v l IH]; [done|].
    rewrite filter_cons. case_decide; [by rewrite IH|done].
  - intros u Hu. by apply filter_keeps_occurrences.
  - intros Hempty Hin. apply list_elem_of_filter. split; [done|].
    subst locs. apply list_elem_of_fmap. by exists (mkUrlEntry "").
Qed.

Lemma C9_witness :
  GetURLsFromSitemap (Fixture.checker ["private"] Fixture.sitemap_site)
                     "http://h/sitemap.xml"
  = (Ok ["http://h/a"; ""; "http://h/a"],
     [ {| Method := "GET"; ReqURL := "http://h/sitemap.xml";
          UserAgentHeader := "TestBot/1.0" |} ]).
Proof.
  apply (proj1 (C9_sitemap_locs_verbatim
                  (Fixture.checker ["private"] Fixture.sitemap_site)
                  "http://h/sitemap.xml"
                  {| Method := "GET"; ReqURL := "http://h/sitemap.xml";
                     UserAgentHeader := "" |}
                  Fixture.sitemap_response
                  Fixture.sitemap_text Fixture.sitemap_struct
                  eq_refl eq_refl eq_refl eq_refl eq_refl)).
Defined.

(** ** The single-link check *)

(** C10. If the [HEAD] request of [checkSingleLink] fails in transport,
    the same request is sent again with method [GET], and when that one
    is answered the result carries the status code of the [GET] response.
    The result has status code 0 together with a non-empty error exactly
    when the request cannot be constructed or both the [HEAD] and the
    [GET] attempt fail. *)
Theorem C10_head_failure_retried_with_get
    `{E : Env} (c : Checker) (checkURL elapsed : string) :
  let run := checkSingleLink c checkURL elapsed in
  (forall req e resp,
     http_NewRequest "HEAD" checkURL = Ok req ->
     let head := set_UserAgent req (UserAgent (config c)) in
     client c head = Err e ->
     client c (set_Method head "GET") = Ok resp ->
     run.2 = [head; set_Method head "GET"] /\
     ReqURL (set_Method head "GET") = checkURL /\
     LR_URL run.1 = checkURL /\
     LR_StatusCode run.1 = StatusCode resp) /\
  ((LR_StatusCode run.1 = 0%Z /\ LR_Error run.1 <> "") <->
   (is_Err (http_NewRequest "HEAD" checkURL) = true \/
    exists req,
      http_NewRequest "HEAD" checkURL = Ok req /\
      let head := set_UserAgent req (UserAgent (config c)) in
      is_Err (client c head) = true /\
      is_Err (client c (set_Method head "GET")) = true)).
Proof.
  intros run. subst run. unfold checkSingleLink, http_NewRequest.
  destruct (http_NewRequest_error "HEAD" checkURL) as [e0|]; simpl.
  - split; [done|]. split; [auto|]. intros _. done.
  - set (head := set_UserAgent _ _). unfold bind, client_Do, ret. split.
    + intros req e resp [= <-] Hhead Hget. fold head in Hhead, Hget.
      rewrite Hhead, Hget. by destruct (400 <=? StatusCode resp)%Z.
    + destruct (client c head) as [resp|e1] eqn:Hhead.
      * split.
        -- destruct (400 <=? StatusCode resp)%Z eqn:Hs; simpl;
             intros [Hzero Herr]; [lia|done].
        -- intros [|(req & [= <-] & Hh & _)]; [done|].
           fold head in Hh. by rewrite Hhead in Hh.
      * destruct (client c (set_Method head "GET")) as [resp|e2] eqn:Hget.
        -- split.
           ++ destruct (400 <=? StatusCode resp)%Z eqn:Hs; simpl;
                intros [Hzero Herr]; [lia|done].
           ++ intros [|(req & [= <-] & _ & Hg)]; [done|].
              fold head in Hg. by rewrite Hget in Hg.
        -- simpl. split; [|done]. intros _. right.
           exists {| Method := "HEAD"; ReqURL := checkURL; UserAgentHeader := "" |}.
           split; [done|]. fold head. by rewrite Hhead, Hget.
Qed.

Lemma C10_witness :
  (checkSingleLink (Fixture.checker [] Fixture.no_head_site) "http://h/a" "1ms").2
  = [ {| Method := "HEAD"; ReqURL := "http://h/a"; UserAgentHeader := "TestBot/1.0" |};
      {| Method := "GET"; ReqURL := "http://h/a"; UserAgentHeader := "TestBot/1.0" |} ] /\
  LR_StatusCode
    (checkSingleLink (Fixture.checker [] Fixture.no_head_site) "http://h/a" "1ms").1
  = 200%Z /\
  LR_StatusCode
    (checkSingleLink (Fixture.checker [] Fixture.unreachable) "http://h/a" "1ms").1
  = 0%Z /\
  LR_Error
    (checkSingleLink (Fixture.checker [] Fixture.unreachable) "http://h/a" "1ms").1
  <> "".
Proof.
  destruct (proj1 (C10_head_failure_retried_with_get
                     (Fixture.checker [] Fixture.no_head_site) "http://h/a" "1ms")
              {| Method := "HEAD"; ReqURL := "http://h/a"; UserAgentHeader := "" |}
              "EOF"
              (Fixture.page_response (Fixture.document [] []))
              eq_refl eq_refl eq_refl) as (Hreqs & _ & _ & Hstatus).
  split; [exact Hreqs|]. split; [exact Hstatus|].
  apply (proj2 (C10_head_failure_retried_with_get
                  (Fixture.checker [] Fixture.unreachable) "http://h/a" "1ms")).
  right.
  exists {| Method := "HEAD"; ReqURL := "http://h/a"; UserAgentHeader := "" |}.
  repeat split.
Defined.

(** ** The link extractor *)

(** Induction on documents: a property holds of every node if it holds of
    a node whenever it holds of its children. *)
Section NodeInduction.
Variable P : Node -> Prop.
Hypothesis step :
  forall t d attrs children, Forall P children -> P (mkNode t d attrs children).

Fixpoint Node_children_ind (n : Node) : P n :=
  match n with
  | mkNode t d attrs children =>
      step t d attrs children
        ((fix all (l : list Node) : Forall P l :=
            match l with
            | [] => @List.Forall_nil Node P
            | child :: rest => @List.Forall_cons Node P child rest
                                 (Node_children_ind child) (all rest)
            end) children)
  end.
End NodeInduction.

(** The nodes of a document in document order: a node, then the nodes of
    its children from first to last. *)
Fixpoint document_order (n : Node) : list Node :=
  n :: flat_map document_order (Children n).

Section Extractor.
Context `{E : Env}.

(** The href of a [<base>] element whose first [href] attribute parses. *)
Definition base_href (n : Node) : option URL :=
  if is_element n "base" then
    match first_href n with
    | Some val =>
        match url_Parse val with
        | Ok baseHref => Some baseHref
        | Err _ => None
        end
    | None => None
    end
  else None.

(** The hrefs of all such elements, in document order. *)
Definition base_hrefs (doc : Node) : list URL :=
  omap base_href (document_order doc).

(** The link contributed by an anchor element, from its first [href]
    attribute resolved against [resolveBaseURL]. *)
Definition anchor_of (resolveBaseURL baseURL : URL) (n : Node) : option string :=
  if is_element n "a" then
    match first_href n with
    | Some link => anchor_link resolveBaseURL baseURL link
    | None => None
    end
  else None.

(** [findBase] keeps the last assignment. *)
Definition last_base (currentURL : URL) (hrefs : list URL)
    (resolveBaseURL : option URL) : option URL :=
  match last hrefs with
  | Some baseHref => Some (url_ResolveReference currentURL baseHref)
  | None => resolveBaseURL
  end.

Lemma last_base_app currentURL l1 l2 acc :
  last_base currentURL (l1 ++ l2) acc
  = last_base currentURL l2 (last_base currentURL l1 acc).
Proof.
  unfold last_base. destruct l2 as [|x l2 _] using rev_ind.
  - by rewrite app_nil_r.
  - by rewrite app_assoc, !last_snoc.
Qed.

Lemma findBase_children currentURL children acc :
  Forall (fun n => forall acc,
            findBase currentURL n acc
            = last_base currentURL (base_hrefs n) acc) children ->
  fold_left (fun acc child => findBase currentURL child acc) children acc
  = last_base currentURL (omap base_href (flat_map document_order children)) acc.
Proof.
  intros Hall. revert acc.
  induction Hall as [|child rest Hchild _ IH]; intros acc; simpl; [done|].
  rewrite IH, Hchild, omap_app, last_base_app. done.
Qed.

Lemma findBase_spec currentURL doc acc :
  findBase currentURL doc acc = last_base currentURL (base_hrefs doc) acc.
Proof.
  revert acc. induction doc as [t d attrs children IH] using Node_children_ind.
  intros acc. cbn [findBase]. rewrite (findBase_children _ _ _ IH).
  unfold base_hrefs. cbn [document_order omap list_omap Children].
  unfold base_href at 2.
  destruct (is_element (mkNode t d attrs children) "base"); [|done].
  destruct (first_href (mkNode t d attrs children)) as [val|]; [|done].
  destruct (url_Parse val) as [baseHref|]; [|done].
  symmetry. exact (last_base_app currentURL [baseHref] _ acc).
Qed.

Lemma extract_children resolveBaseURL baseURL children links :
  Forall (fun n => forall links,
            extract resolveBaseURL baseURL n links
            = links ++ omap (anchor_of resolveBaseURL baseURL) (document_order n))
         children ->
  fold_left (fun acc child => extract resolveBaseURL baseURL child acc)
            children links
  = links ++ omap (anchor_of resolveBaseURL baseURL)
                  (flat_map document_order children).
Proof.
  intros Hall. revert links.
  induction Hall as [|child rest Hchild _ IH]; intros links; simpl.
  - by rewrite app_nil_r.
  - by rewrite IH, Hchild, omap_app, app_assoc.
Qed.

(** [extract] appends the links of the anchors in document order. *)
Lemma extract_spec resolveBaseURL baseURL doc links :
  extract resolveBaseURL baseURL doc links
  = links ++ omap (anchor_of resolveBaseURL baseURL) (document_order doc).
Proof.
  revert links. induction doc as [t d attrs children IH] using Node_children_ind.
  intros links. cbn [extract]. rewrite (extract_children _ _ _ _ IH).
  cbn [document_order omap list_omap Children]. unfold anchor_of at 2.
  destruct (is_element (mkNode t d attrs children) "a"); [|done].
  destruct (first_href (mkNode t d attrs children)) as [link|]; [|done].
  destruct (anchor_link resolveBaseURL baseURL link); [|done].
  by rewrite <- app_assoc.
Qed.

End Extractor.

(** What the code does with [<base>] elements: [findBase] walks the whole
    document and assigns at every [<base>] whose first [href] parses, so
    the last one in document order is the base every anchor is resolved
    against; the heuristic resolution is not consulted and the only
    request is the [GET] of the page. *)
Lemma extractLinksFromPage_with_base
    `{E : Env} (c : Checker) (pageURL : string) (currentURL baseURL : URL)
    (req : Request) (resp : Response) (doc : Node)
    (earlier : list URL) (baseHref : URL) :
  http_NewRequest "GET" pageURL = Ok req ->
  client c (set_UserAgent req (UserAgent (config c))) = Ok resp ->
  StatusCode resp = 200%Z ->
  html_Parse (RespBody resp) = Ok doc ->
  base_hrefs doc = earlier ++ [baseHref] ->
  extractLinksFromPage c pageURL currentURL baseURL
  = (Ok (omap (anchor_of (url_ResolveReference currentURL baseHref) baseURL)
              (document_order doc)),
     [set_UserAgent req (UserAgent (config c))]).
Proof.
  intros Hreq Hdo Hstatus Hparse Hbases.
  unfold extractLinksFromPage, bind, client_Do, ret.
  rewrite Hreq, Hdo, Hstatus, Hparse. cbn [Z.eqb Pos.eqb negb].
  rewrite findBase_spec, Hbases. unfold last_base. rewrite last_snoc.
  by rewrite extract_spec.
Qed.

(** C1. The claim fails on the code for a page with more than one [<base>]
    element, and the code is at fault: its walk of the document does not
    stop at the first [<base>] with a parseable href, so a later one
    overwrites it.  On the page [http://h/a/b] with [<base href=/x/>],
    [<base href=/y/>] and an anchor to [c], the first such element gives
    the base [http://h/x/] and the link [http://h/x/c]; the program
    returns [http://h/y/c]. *)
Theorem C1_second_base_overrides_first :
  base_hrefs (E := Fixture.env) Fixture.two_bases
  = [Fixture.plain_URL "" "" "/x/"; Fixture.plain_URL "" "" "/y/"] /\
  omap (anchor_of (E := Fixture.env)
          (Fixture.ResolveReference (Fixture.plain_URL "http" "h" "/a/b")
                                    (Fixture.plain_URL "" "" "/x/"))
          (Fixture.plain_URL "http" "h" "/a/b"))
       (document_order Fixture.two_bases)
  = ["http://h/x/c"] /\
  extractLinksFromPage (Fixture.checker [] Fixture.two_bases_site)
    "http://h/a/b" (Fixture.plain_URL "http" "h" "/a/b")
    (Fixture.plain_URL "http" "h" "/a/b")
  = (Ok ["http://h/y/c"],
     [ {| Method := "GET"; ReqURL := "http://h/a/b";
          UserAgentHeader := "TestBot/1.0" |} ]).
Proof. repeat split. Qed.

(** * Further properties of the checker *)

(** ** getResolveBaseURLByExtension

    The resolver without the Content-Type stage.  Its extension stage is
    the same code as the one of [getResolveBaseURL]. *)
Definition getResolveBaseURLByExtension `{E : Env} (currentURL : URL) : URL :=
  if GoStrings.HasSuffix (Path currentURL) "/" then currentURL
  else
    match extension_stage currentURL with
    | Some newURL => newURL
    | None => set_Path currentURL (Path currentURL +:+ "/")
    end.

Section ResolverShape.
Context `{E : Env}.
Import GoStrings.

Lemma set_Path_id u : set_Path u (Path u) = u.
Proof. by destruct u. Qed.

(** The parent directory keeps every field but the path, which ends in a
    slash. *)
Lemma parent_directory_shape u seg :
  exists p, parent_directory u seg = set_Path u p /\ HasSuffix p "/" = true.
Proof.
  unfold parent_directory. cbn [Path set_Path].
  destruct (HasSuffix (TrimSuffix (Path u) seg) "/") eqn:Hs; cbn [negb].
  - by eexists.
  - eexists. split; [reflexivity|]. apply HasSuffix_append.
Qed.

Lemma extension_stage_shape u newURL :
  extension_stage u = Some newURL ->
  exists p, newURL = set_Path u p /\ HasSuffix p "/" = true.
Proof.
  unfold extension_stage.
  destruct (0 <? length (Split (Path u) "/"))%nat; [|done].
  destruct (Contains _ "."); [|done].
  destruct (map_get fileExtensions _); [|done].
  intros [= <-]. apply parent_directory_shape.
Qed.

Variable c : Checker.

(** The probe sends nothing or one [HEAD] request for the URL it is given,
    with the configured user agent. *)
Lemma isFileByContentType_requests urlStr :
  (isFileByContentType c urlStr).2 = [] \/
  (isFileByContentType c urlStr).2
  = [ {| Method := "HEAD"; ReqURL := urlStr;
         UserAgentHeader := UserAgent (config c) |} ].
Proof.
  unfold isFileByContentType, http_NewRequest.
  destruct (http_NewRequest_error "HEAD" urlStr); [by left|]. right.
  unfold bind, client_Do, ret, set_UserAgent. cbn [Method ReqURL].
  destruct (client c _) as [resp|]; [|done].
  destruct (400 <=? StatusCode resp)%Z; [done|].
  by destruct (String.eqb _ "").
Qed.

Lemma getResolveBaseURL_shape u :
  (exists p, (getResolveBaseURL c u).1 = set_Path u p /\ HasSuffix p "/" = true) /\
  ((getResolveBaseURL c u).2 = [] \/
   (getResolveBaseURL c u).2
   = [ {| Method := "HEAD"; ReqURL := url_String u;
          UserAgentHeader := UserAgent (config c) |} ]).
Proof.
  unfold getResolveBaseURL.
  destruct (HasSuffix (Path u) "/") eqn:Hslash.
  { split; [|by left]. exists (Path u). by rewrite set_Path_id. }
  destruct (extension_stage u) as [newURL|] eqn:Hstage.
  { split; [|by left]. by apply extension_stage_shape. }
  pose proof (isFileByContentType_requests (url_String u)) as Hreqs.
  unfold bind, ret.
  destruct (isFileByContentType c (url_String u)) as [[isFile|e] reqs];
    cbn [fst snd] in *.
  - destruct isFile.
    + assert (Hlen : (0 <? length (Split (Path u) "/"))%nat = true).
      { pose proof (Split_nonempty (Path u) "/").
        by destruct (Split (Path u) "/"). }
      rewrite Hlen. cbn [fst snd]. rewrite app_nil_r. split; [|done].
      apply parent_directory_shape.
    + cbn [fst snd]. rewrite app_nil_r. split; [|done].
      eexists. split; [reflexivity|apply HasSuffix_append].
  - cbn [fst snd]. rewrite app_nil_r. split; [|done].
    eexists. split; [reflexivity|apply HasSuffix_append].
Qed.

End ResolverShape.

(** More of the concrete world: servers that answer the probe. *)
Module Probes.

#[local] Existing Instance Fixture.env.

Definition head_response (contentType : string) : Response :=
  {| Status := "200 OK"; StatusCode := 200;
     Header := {[ "Content-Type" := [contentType] ]};
     RespBody := Fixture.BrokenBody |}.

(** A server that answers every request with the given Content-Type. *)
Definition typed_site (contentType : string) (req : Request) : result Response :=
  Ok (head_response contentType).

Definition head_request (url : string) : Request :=
  {| Method := "HEAD"; ReqURL := url; UserAgentHeader := "TestBot/1.0" |}.

End Probes.

(** X1. Whatever the URL and the network, [getResolveBaseURL] returns the
    URL it was given with at most the path changed, and the path of the
    result ends in a slash.  It sends at most one request: a [HEAD] for the
    URL, with the configured user agent. *)
Theorem X1_resolver_changes_only_path
    `{E : Env} (c : Checker) (u : URL) :
  (exists p, (getResolveBaseURL c u).1 = set_Path u p /\
             GoStrings.HasSuffix p "/" = true) /\
  ((getResolveBaseURL c u).2 = [] \/
   (getResolveBaseURL c u).2
   = [ {| Method := "HEAD"; ReqURL := url_String u;
          UserAgentHeader := UserAgent (config c) |} ]).
Proof. apply getResolveBaseURL_shape. Qed.

(** X2. [getResolveBaseURL] is idempotent: applied to its own result it
    returns that result unchanged and sends nothing; so does
    [getResolveBaseURLByExtension]. *)
Theorem X2_resolver_idempotent `{E : Env} (c : Checker) (u : URL) :
  getResolveBaseURL c (getResolveBaseURL c u).1
  = ((getResolveBaseURL c u).1, []) /\
  getResolveBaseURLByExtension (getResolveBaseURL c u).1
  = (getResolveBaseURL c u).1.
Proof.
  destruct (getResolveBaseURL_shape c u) as [(p & Hp & Hslash) _].
  rewrite Hp. unfold getResolveBaseURL, getResolveBaseURLByExtension.
  cbn [Path set_Path]. by rewrite Hslash.
Qed.

(** X3. When the path does not end in a slash, has no recognized
    extension, and the probe is answered: a file type gives the parent
    directory (the path without its last segment, or ["/"] when nothing is
    left), any other type gives the path with a slash appended.  The only
    requests are those of the probe. *)
Theorem X3_probe_answer_decides
    `{E : Env} (c : Checker) (u : URL) (dir seg : string)
    (isFile : bool) (reqs : list Request) :
  GoStrings.HasSuffix (Path u) "/" = false ->
  has_recognized_extension u = false ->
  Path u = dir +:+ seg ->
  (dir = "" \/ exists p, dir = p +:+ "/") ->
  GoStrings.Contains seg "/" = false ->
  isFileByContentType c (url_String u) = (Ok isFile, reqs) ->
  getResolveBaseURL c u
  = (set_Path u (if isFile then (if String.eqb dir "" then "/" else dir)
                 else Path u +:+ "/"),
     reqs).
Proof.
  intros Hslash Hext Hpath Hdir Hseg Hprobe.
  assert (Hstage : extension_stage u = None).
  { unfold has_recognized_extension in Hext. by destruct (extension_stage u). }
  unfold getResolveBaseURL. rewrite Hslash, Hstage, Hprobe. unfold bind, ret.
  destruct isFile; [|by rewrite app_nil_r].
  assert (Hlen : (0 <? length (GoStrings.Split (Path u) "/"))%nat = true).
  { pose proof (Split_nonempty (Path u) "/").
    by destruct (GoStrings.Split (Path u) "/"). }
  rewrite Hlen, app_nil_r.
  change (nth (length (GoStrings.Split (Path u) "/") - 1)
              (GoStrings.Split (Path u) "/") "")
    with (last_of (GoStrings.Split (Path u) "/")).
  assert (Hlast : last_of (GoStrings.Split (Path u) "/") = seg)
    by (rewrite Hpath; by apply Split_last_unique).
  by rewrite Hlast, (parent_directory_split u dir seg Hpath Hdir).
Qed.

Lemma X3_witness :
  getResolveBaseURL (Fixture.checker [] (Probes.typed_site "Application/PDF; charset=binary"))
                    (Fixture.plain_URL "http" "h" "/files/report")
  = (Fixture.plain_URL "http" "h" "/files/",
     [Probes.head_request "http://h/files/report"]) /\
  getResolveBaseURL (Fixture.checker [] (Probes.typed_site "text/html"))
                    (Fixture.plain_URL "http" "h" "/files/report")
  = (Fixture.plain_URL "http" "h" "/files/report/",
     [Probes.head_request "http://h/files/report"]).
Proof.
  split.
  - apply (X3_probe_answer_decides
             (Fixture.checker [] (Probes.typed_site "Application/PDF; charset=binary"))
             (Fixture.plain_URL "http" "h" "/files/report")
             "/files/" "report" true
             [Probes.head_request "http://h/files/report"]);
      [reflexivity | reflexivity | reflexivity | right; by exists "/files"
      | reflexivity | reflexivity].
  - apply (X3_probe_answer_decides
             (Fixture.checker [] (Probes.typed_site "text/html"))
             (Fixture.plain_URL "http" "h" "/files/report")
             "/files/" "report" false
             [Probes.head_request "http://h/files/report"]);
      [reflexivity | reflexivity | reflexivity | right; by exists "/files"
      | reflexivity | reflexivity].
Defined.

(** X4. [getResolveBaseURLByExtension] needs no network, and
    [getResolveBaseURL] returns the same URL unless its probe is answered
    with a file type. *)
Theorem X4_by_extension_agrees `{E : Env} (c : Checker) (u : URL) :
  (isFileByContentType c (url_String u)).1 <> Ok true ->
  (getResolveBaseURL c u).1 = getResolveBaseURLByExtension u.
Proof.
  intros Hprobe. unfold getResolveBaseURL, getResolveBaseURLByExtension.
  destruct (GoStrings.HasSuffix (Path u) "/"); [done|].
  destruct (extension_stage u); [done|]. unfold bind, ret.
  destruct (isFileByContentType c (url_String u)) as [[[|]|e] reqs];
    cbn [fst] in *; done.
Qed.

Lemma X4_witness :
  (isFileByContentType (Fixture.checker [] Fixture.unreachable)
                       "http://h/docs/guide").1 <> Ok true /\
  (getResolveBaseURL (Fixture.checker [] Fixture.unreachable)
                     (Fixture.plain_URL "http" "h" "/docs/guide")).1
  = getResolveBaseURLByExtension (E := Fixture.env)
      (Fixture.plain_URL "http" "h" "/docs/guide").
Proof.
  split; [discriminate|].
  apply (X4_by_extension_agrees (Fixture.checker [] Fixture.unreachable)
           (Fixture.plain_URL "http" "h" "/docs/guide")).
  discriminate.
Defined.

(** ** The MIME classifier *)

Section Mime.
Context `{E : Env}.
Import GoStrings.

Lemma map_get_set_of keys k : map_get (set_of keys) k = true -> k ∈ keys.
Proof.
  unfold map_get, set_of.
  destruct (list_to_map (map (fun k => (k, true)) keys) !! k) as [b|] eqn:Hk;
    [|done].
  intros _. apply elem_of_list_to_map_2 in Hk.
  apply list_elem_of_fmap in Hk as (k' & [= -> _] & Hin). done.
Qed.

Lemma directory_types_not_files mimeType :
  map_get directoryTypes mimeType = true -> map_get fileTypes mimeType = false.
Proof.
  intros Hdir. apply map_get_set_of in Hdir.
  repeat (apply elem_of_cons in Hdir as [-> | Hdir]; [by vm_compute|]).
  by apply elem_of_nil in Hdir.
Qed.

(** The text before the first separator is the first element of [Split]. *)
Lemma Split_first s rest sep :
  Contains s sep = false ->
  (rest = "" \/ exists r, rest = String sep r) ->
  nth 0 (Split (s +:+ rest) sep) "" = s.
Proof.
  intros Hs [-> | (r & ->)].
  - by rewrite append_nil_r, Split_no_sep.
  - by rewrite Split_append_sep, Split_no_sep.
Qed.

End Mime.

(** X5. The two tables of [isFileMimeType] are disjoint: a type is a file
    exactly when it is a key of [fileTypes], and then it is not a key of
    [directoryTypes].  Every type outside [fileTypes], known or not, is
    treated as a directory. *)
Theorem X5_file_types_table (mimeType : string) :
  isFileMimeType mimeType = map_get fileTypes mimeType /\
  (isFileMimeType mimeType = true -> map_get directoryTypes mimeType = false).
Proof.
  unfold isFileMimeType.
  destruct (map_get directoryTypes mimeType) eqn:Hdir; [|done].
  by rewrite directory_types_not_files.
Qed.

(** X6. When the probe is answered with a status below 400 and a
    Content-Type header [mime] or [mime;parameters], [isFileByContentType]
    classifies [mime] alone, lowered and trimmed: the parameters play no
    role.  One [HEAD] request is sent. *)
Theorem X6_content_type_parameters_ignored
    `{E : Env} (c : Checker) (urlStr : string) (req : Request)
    (resp : Response) (mime rest : string) :
  http_NewRequest "HEAD" urlStr = Ok req ->
  client c (set_UserAgent req (UserAgent (config c))) = Ok resp ->
  (StatusCode resp < 400)%Z ->
  Header_Get (Header resp) "Content-Type" = mime +:+ rest ->
  mime +:+ rest <> "" ->
  GoStrings.Contains mime ";" = false ->
  (rest = "" \/ exists r, rest = ";" +:+ r) ->
  isFileByContentType c urlStr
  = (Ok (isFileMimeType (strings_TrimSpace (strings_ToLower mime))),
     [set_UserAgent req (UserAgent (config c))]).
Proof.
  intros Hreq Hdo Hstatus Hheader Hne Hmime Hrest.
  unfold isFileByContentType, bind, client_Do, ret.
  rewrite Hreq, Hdo, Hheader.
  destruct (400 <=? StatusCode resp)%Z eqn:Hs; [lia|].
  destruct (String.eqb (mime +:+ rest) "") eqn:Hempty;
    [by apply String.eqb_eq in Hempty|].
  by rewrite Split_first.
Qed.

Lemma X6_witness :
  isFileByContentType
    (Fixture.checker [] (Probes.typed_site " Application/PDF ; charset=binary"))
    "http://h/files/report"
  = (Ok true, [Probes.head_request "http://h/files/report"]).
Proof.
  apply (X6_content_type_parameters_ignored
           (Fixture.checker [] (Probes.typed_site " Application/PDF ; charset=binary"))
           "http://h/files/report"
           {| Method := "HEAD"; ReqURL := "http://h/files/report";
              UserAgentHeader := "" |}
           (Probes.head_response " Application/PDF ; charset=binary")
           " Application/PDF " "; charset=binary");
    [reflexivity | reflexivity | reflexivity | reflexivity | discriminate
    | reflexivity | right; by exists " charset=binary"].
Defined.

(** ** More on the link extractor *)

Section ExtractorFacts.
Context `{E : Env}.
Variable c : Checker.

(** What it takes for an anchor to contribute a link. *)
Lemma anchor_link_Some resolveBaseURL baseURL href l :
  anchor_link resolveBaseURL baseURL href = Some l ->
  l <> "" /\
  (exists linkURL, url_Parse l = Ok linkURL /\ Host linkURL = Host baseURL) /\
  href <> "" /\
  GoStrings.HasPrefix href "#" = false /\
  GoStrings.HasPrefix href "javascript:" = false /\
  GoStrings.HasPrefix href "mailto:" = false /\
  exists hrefURL,
    url_Parse href = Ok hrefURL /\
    l = url_String (url_ResolveReference resolveBaseURL hrefURL).
Proof.
  unfold anchor_link.
  destruct (String.eqb (resolveURL href resolveBaseURL) "") eqn:Hempty;
    [done|]. cbn [negb].
  destruct (url_Parse (resolveURL href resolveBaseURL)) as [linkURL|] eqn:Hl;
    [|done].
  destruct (String.eqb (Host linkURL) (Host baseURL)) eqn:Hhost; [|done].
  intros [= <-]. apply String.eqb_neq in Hempty. apply String.eqb_eq in Hhost.
  split; [done|]. split; [by exists linkURL|].
  unfold resolveURL in *.
  destruct (String.eqb href "") eqn:H1; [done|].
  destruct (GoStrings.HasPrefix href "#"); [done|].
  destruct (GoStrings.HasPrefix href "javascript:"); [done|].
  destruct (GoStrings.HasPrefix href "mailto:"); [done|].
  cbn [orb] in *. apply String.eqb_neq in H1.
  destruct (url_Parse href) as [hrefURL|]; [|done].
  repeat split; try done. by exists hrefURL.
Qed.

(** The result of a successful extraction and its requests. *)
Lemma extractLinksFromPage_Ok pageURL currentURL baseURL links reqs :
  extractLinksFromPage c pageURL currentURL baseURL = (Ok links, reqs) ->
  exists doc resolveBaseURL probe,
    links = omap (anchor_of resolveBaseURL baseURL) (document_order doc) /\
    reqs = {| Method := "GET"; ReqURL := pageURL;
              UserAgentHeader := UserAgent (config c) |} :: probe /\
    (probe = [] \/
     probe = [ {| Method := "HEAD"; ReqURL := url_String currentURL;
                  UserAgentHeader := UserAgent (config c) |} ]).
Proof.
  unfold extractLinksFromPage, http_NewRequest.
  destruct (http_NewRequest_error "GET" pageURL); [done|].
  unfold bind, client_Do, ret, set_UserAgent. cbn [Method ReqURL].
  destruct (client c _) as [resp|]; [|done].
  destruct (negb (StatusCode resp =? 200)%Z); [done|].
  destruct (html_Parse (RespBody resp)) as [doc|]; [|done].
  destruct (findBase currentURL doc None) as [found|].
  - intros [= <- <-]. exists doc, found, []. rewrite extract_spec. auto.
  - destruct (getResolveBaseURL c currentURL) as [base probe] eqn:Hbase.
    intros [= <- <-]. exists doc, base, probe. rewrite extract_spec.
    cbn [app]. rewrite app_nil_r. split; [done|]. split; [done|].
    pose proof (getResolveBaseURL_shape c currentURL) as [_ Hreqs].
    by rewrite Hbase in Hreqs.
Qed.

Lemma extracted_link_same_host pageURL currentURL baseURL links reqs l :
  extractLinksFromPage c pageURL currentURL baseURL = (Ok links, reqs) ->
  l ∈ links ->
  l <> "" /\
  exists linkURL, url_Parse l = Ok linkURL /\ Host linkURL = Host baseURL.
Proof.
  intros (doc & base & probe & -> & _)%extractLinksFromPage_Ok Hin.
  apply list_elem_of_omap in Hin as (n & _ & Hn). unfold anchor_of in Hn.
  destruct (is_element n "a"); [|done].
  destruct (first_href n) as [href|]; [|done].
  apply anchor_link_Some in Hn. tauto.
Qed.

End ExtractorFacts.

(** The base the anchors of a fetched page are resolved against: the one
    assigned last by [findBase], or else the result of [getResolveBaseURL]. *)
Definition effective_base `{E : Env} (c : Checker) (currentURL : URL)
    (doc : Node) : URL :=
  match findBase currentURL doc None with
  | Some found => found
  | None => (getResolveBaseURL c currentURL).1
  end.

(** An anchor element of the page whose first [href] passes the filter of
    [resolveURL], resolves to [l] against [base], and whose resolution
    parses to a URL on the host of [baseURL]. *)
Definition link_of_page `{E : Env} (doc : Node) (base baseURL : URL)
    (l : string) : Prop :=
  exists n href hrefURL linkURL,
    n ∈ document_order doc /\ is_element n "a" = true /\
    first_href n = Some href /\
    href <> "" /\ GoStrings.HasPrefix href "#" = false /\
    GoStrings.HasPrefix href "javascript:" = false /\
    GoStrings.HasPrefix href "mailto:" = false /\
    url_Parse href = Ok hrefURL /\
    l = url_String (url_ResolveReference base hrefURL) /\
    l <> "" /\
    url_Parse l = Ok linkURL /\ Host linkURL = Host baseURL.

Section LinksOfPage.
Context `{E : Env}.

Lemma anchor_link_intro resolveBaseURL baseURL href hrefURL linkURL l :
  href <> "" -> GoStrings.HasPrefix href "#" = false ->
  GoStrings.HasPrefix href "javascript:" = false ->
  GoStrings.HasPrefix href "mailto:" = false ->
  url_Parse href = Ok hrefURL ->
  l = url_String (url_ResolveReference resolveBaseURL hrefURL) ->
  l <> "" -> url_Parse l = Ok linkURL -> Host linkURL = Host baseURL ->
  anchor_link resolveBaseURL baseURL href = Some l.
Proof.
  intros H1 H2 H3 H4 Hparse Hl Hne Hlink Hhost.
  assert (Hres : resolveURL href resolveBaseURL = l).
  { unfold resolveURL. rewrite H2, H3, H4, Hparse.
    apply String.eqb_neq in H1. by rewrite H1. }
  unfold anchor_link. rewrite Hres.
  apply String.eqb_neq in Hne. rewrite Hne. cbn [negb].
  rewrite Hlink, Hhost. by rewrite String.eqb_refl.
Qed.

Lemma anchor_of_link_of_page doc base baseURL l :
  l ∈ omap (anchor_of base baseURL) (document_order doc) <->
  link_of_page doc base baseURL l.
Proof.
  rewrite list_elem_of_omap. split.
  - intros (n & Hdoc & Hn). unfold anchor_of in Hn.
    destruct (is_element n "a") eqn:Ha; [|done].
    destruct (first_href n) as [href|] eqn:Hhref; [|done].
    apply anchor_link_Some in Hn
      as (Hne & (linkURL & Hlink & Hhost) & H1 & H2 & H3 & H4
          & hrefURL & Hparse & Hl).
    exists n, href, hrefURL, linkURL. repeat split; done.
  - intros (n & href & hrefURL & linkURL & Hdoc & Ha & Hhref & H1 & H2 & H3
            & H4 & Hparse & Hl & Hne & Hlink & Hhost).
    exists n. split; [done|]. unfold anchor_of. rewrite Ha, Hhref.
    by eapply anchor_link_intro.
Qed.

End LinksOfPage.

(** X7. When the page is fetched with status 200 and parses to [doc],
    [extractLinksFromPage] returns a sequence whose elements are exactly
    the links of the anchors of [doc]: a string is in the result if and
    only if it is the resolution, against the effective base of that
    page, of the first [href] of an anchor element of [doc], where that
    href is not empty and does not start with [#], [javascript:] or
    [mailto:], and the resolution is a non-empty string that parses as a
    URL whose host is exactly the host of [baseURL]. *)
Theorem X7_extracted_links_same_host
    `{E : Env} (c : Checker) (pageURL : string) (currentURL baseURL : URL)
    (req : Request) (resp : Response) (doc : Node) :
  http_NewRequest "GET" pageURL = Ok req ->
  client c (set_UserAgent req (UserAgent (config c))) = Ok resp ->
  StatusCode resp = 200%Z ->
  html_Parse (RespBody resp) = Ok doc ->
  exists links reqs,
    extractLinksFromPage c pageURL currentURL baseURL = (Ok links, reqs) /\
    forall l,
      l ∈ links <->
      link_of_page doc (effective_base c currentURL doc) baseURL l.
Proof.
  intros Hreq Hdo Hstatus Hparse.
  unfold extractLinksFromPage, bind, client_Do, ret, effective_base.
  rewrite Hreq, Hdo, Hstatus, Hparse. cbn [Z.eqb Pos.eqb negb].
  destruct (findBase currentURL doc None) as [found|].
  - do 2 eexists. split; [reflexivity|]. intros l.
    rewrite extract_spec. cbn [app]. apply anchor_of_link_of_page.
  - destruct (getResolveBaseURL c currentURL) as [base probe]. cbn [fst].
    do 2 eexists. split; [reflexivity|]. intros l.
    rewrite extract_spec. cbn [app]. apply anchor_of_link_of_page.
Qed.

Lemma X7_witness :
  exists links reqs,
    extractLinksFromPage (Fixture.checker [] Fixture.two_bases_site)
      "http://h/a/b" (Fixture.plain_URL "http" "h" "/a/b")
      (Fixture.plain_URL "http" "h" "/a/b") = (Ok links, reqs) /\
    forall l,
      l ∈ links <->
      link_of_page (E := Fixture.env) Fixture.two_bases
        (effective_base (Fixture.checker [] Fixture.two_bases_site)
                        (Fixture.plain_URL "http" "h" "/a/b") Fixture.two_bases)
        (Fixture.plain_URL "http" "h" "/a/b") l.
Proof.
  apply (X7_extracted_links_same_host
           (Fixture.checker [] Fixture.two_bases_site)
           "http://h/a/b" (Fixture.plain_URL "http" "h" "/a/b")
           (Fixture.plain_URL "http" "h" "/a/b")
           {| Method := "GET"; ReqURL := "http://h/a/b"; UserAgentHeader := "" |}
           (Fixture.page_response Fixture.two_bases) Fixture.two_bases
           eq_refl eq_refl eq_refl eq_refl).
Defined.

(** X8. When the page has no [<base>] element whose first [href] parses
    (none at all, or only ones without a usable href), the links are
    resolved against the base computed by [getResolveBaseURL] from
    [currentURL], and the requests are the [GET] of the page followed by
    those of the resolver. *)
Theorem X8_no_base_uses_resolver
    `{E : Env} (c : Checker) (pageURL : string) (currentURL baseURL : URL)
    (req : Request) (resp : Response) (doc : Node) :
  http_NewRequest "GET" pageURL = Ok req ->
  client c (set_UserAgent req (UserAgent (config c))) = Ok resp ->
  StatusCode resp = 200%Z ->
  html_Parse (RespBody resp) = Ok doc ->
  base_hrefs doc = [] ->
  extractLinksFromPage c pageURL currentURL baseURL
  = (Ok (omap (anchor_of (getResolveBaseURL c currentURL).1 baseURL)
              (document_order doc)),
     set_UserAgent req (UserAgent (config c))
       :: (getResolveBaseURL c currentURL).2).
Proof.
  intros Hreq Hdo Hstatus Hparse Hbases.
  unfold extractLinksFromPage, bind, client_Do, ret.
  rewrite Hreq, Hdo, Hstatus, Hparse. cbn [Z.eqb Pos.eqb negb].
  rewrite findBase_spec, Hbases. cbn [last_base last].
  destruct (getResolveBaseURL c currentURL) as [base probe]. cbn [fst snd].
  by rewrite extract_spec, app_nil_r.
Qed.

(** A page whose only [<base>] element has an href that does not parse. *)
Module Pages.

#[local] Existing Instance Fixture.env.

Definition unusable_base : Node :=
  Fixture.document [Fixture.base_tag ":bad"] [Fixture.anchor "c"].

(** The answer of [Fixture.not_found]. *)
Definition not_found_response : Response :=
  {| Status := "404 Not Found"; StatusCode := 404;
     Header := {[ "Content-Type" := ["text/plain"] ]};
     RespBody := Fixture.BrokenBody |}.

Definition unusable_base_site (req : Request) : result Response :=
  if String.eqb (Method req) "GET" && String.eqb (ReqURL req) "http://h/dir/"
  then Fixture.ok_page unusable_base
  else Fixture.not_found.

End Pages.

Lemma X8_witness :
  base_hrefs (E := Fixture.env) Pages.unusable_base = [] /\
  extractLinksFromPage (Fixture.checker [] Pages.unusable_base_site)
    "http://h/dir/" (Fixture.plain_URL "http" "h" "/dir/")
    (Fixture.plain_URL "http" "h" "/dir/")
  = (Ok ["http://h/dir/c"],
     [ {| Method := "GET"; ReqURL := "http://h/dir/";
          UserAgentHeader := "TestBot/1.0" |} ]).
Proof.
  split; [reflexivity|].
  apply (X8_no_base_uses_resolver
           (Fixture.checker [] Pages.unusable_base_site)
           "http://h/dir/" (Fixture.plain_URL "http" "h" "/dir/")
           (Fixture.plain_URL "http" "h" "/dir/")
           {| Method := "GET"; ReqURL := "http://h/dir/"; UserAgentHeader := "" |}
           (Fixture.page_response Pages.unusable_base) Pages.unusable_base
           eq_refl eq_refl eq_refl eq_refl eq_refl).
Defined.

(** ** More on the crawl *)

Section CrawlInduction.
Context `{E : Env}.
Variable c : Checker.
Variable maxDepth : Z.
Variable baseURLParsed : URL.

Local Abbreviation crawl := (crawl c maxDepth baseURLParsed).

(** Induction over a crawl with the depth in view.  [A d u] is what is
    known of a URL on which [crawl] is called at depth [d]; it passes from
    a page to the links found on it.  [I] survives recording such a URL
    and survives fetching it. *)
Lemma crawl_depth_induction (I : CrawlState -> Prop) (A : Z -> string -> Prop) :
  (forall d u st, A d u -> (d <= maxDepth)%Z ->
                  map_get (visited st) u = false -> I st ->
                  I (record_url u st)) ->
  (forall d u parsed r reqs st,
      A d u -> (d < maxDepth)%Z -> url_Parse u = Ok parsed ->
      extractLinksFromPage c u parsed baseURLParsed = (r, reqs) ->
      map_get (visited st) u = false -> I st ->
      I (log_requests reqs (record_url u st))) ->
  (forall d u parsed links reqs l,
      A d u -> (d < maxDepth)%Z -> url_Parse u = Ok parsed ->
      extractLinksFromPage c u parsed baseURLParsed = (Ok links, reqs) ->
      l ∈ links -> shouldExclude c l = false -> A (d + 1)%Z l) ->
  forall fuel u d st st',
    A d u -> I st -> crawl fuel u d st = Some st' -> I st'.
Proof.
  intros Hrecord Hfetch Hlinks.
  induction fuel as [|fuel IH]; intros u d st st' HA HI Hrun; [done|].
  rewrite crawl_unfold in Hrun.
  destruct (maxDepth <? d)%Z eqn:Hgt; [congruence|].
  destruct (map_get (visited st) u) eqn:Hv; [congruence|].
  cbv zeta in Hrun.
  destruct (d =? maxDepth)%Z eqn:Heq.
  { inversion Hrun; subst. eapply Hrecord; eauto. lia. }
  destruct (url_Parse u) as [parsed|] eqn:Hparse.
  2:{ inversion Hrun; subst. eapply Hrecord; eauto. lia. }
  destruct (extractLinksFromPage c u parsed baseURLParsed) as [r reqs] eqn:Hx.
  assert (Hd : (d < maxDepth)%Z) by lia.
  pose proof (Hfetch d u parsed r reqs st HA Hd Hparse Hx Hv HI) as HI1.
  destruct r as [links|]; [|by inversion Hrun; subst].
  eapply (crawl_links_preserves c I); [|exact HI1|exact Hrun].
  intros l s s' Hl Hex _ Hs Hcall. eapply IH; [|exact Hs|exact Hcall].
  eapply Hlinks; eauto.
Qed.

End CrawlInduction.

(** The URLs within [k] links of the seed: the seed, and every link that
    is not excluded on a page within [k-1] links whose extraction
    succeeds. *)
Inductive within `{E : Env} (c : Checker) (baseURLParsed : URL) (seed : string)
  : nat -> string -> Prop :=
| within_seed : within c baseURLParsed seed 0 seed
| within_link k u parsed links reqs l :
    within c baseURLParsed seed k u ->
    url_Parse u = Ok parsed ->
    extractLinksFromPage c u parsed baseURLParsed = (Ok links, reqs) ->
    l ∈ links -> shouldExclude c l = false ->
    within c baseURLParsed seed (S k) l.

Section CrawlMore.
Context `{E : Env}.
Variable c : Checker.

Lemma crawl_within N baseURLParsed fuel seed st x :
  crawl c N baseURLParsed fuel seed 0 empty_state = Some st ->
  x ∈ urls st ->
  exists k, (Z.of_nat k <= N)%Z /\ within c baseURLParsed seed k x.
Proof.
  intros Hrun.
  pose (A := fun (d : Z) (u : string) =>
               exists k, Z.of_nat k = d /\ within c baseURLParsed seed k u).
  pose (I := fun s : CrawlState =>
               forall y, y ∈ urls s ->
                 exists k, (Z.of_nat k <= N)%Z /\ within c baseURLParsed seed k y).
  cut (I st); [intros HI; apply HI|].
  eapply (crawl_depth_induction c N baseURLParsed I A); [| | | | |exact Hrun].
  - intros d u s (k & Hk & Hw) Hd _ Hs y. simpl.
    rewrite elem_of_app, list_elem_of_singleton. intros [Hy| ->]; [auto|].
    exists k. split; [lia|done].
  - intros d u parsed r reqs s (k & Hk & Hw) Hd _ _ _ Hs y. simpl.
    rewrite elem_of_app, list_elem_of_singleton. intros [Hy| ->]; [auto|].
    exists k. split; [lia|done].
  - intros d u parsed links reqs l (k & Hk & Hw) Hd Hparse Hx Hl Hex.
    exists (S k). split; [lia|]. econstructor; eauto.
  - exists 0%nat. split; [done|constructor].
  - intros y Hy. by apply elem_of_nil in Hy.
Qed.

Lemma crawl_same_host N baseURLParsed fuel seed st x :
  crawl c N baseURLParsed fuel seed 0 empty_state = Some st ->
  x ∈ urls st ->
  x = seed \/
  exists linkURL, url_Parse x = Ok linkURL /\ Host linkURL = Host baseURLParsed.
Proof.
  intros Hrun.
  pose (A := fun (_ : Z) (u : string) =>
               u = seed \/
               exists linkURL, url_Parse u = Ok linkURL /\
                               Host linkURL = Host baseURLParsed).
  pose (I := fun s : CrawlState => forall y, y ∈ urls s -> A 0%Z y).
  cut (I st); [intros HI; apply HI|].
  eapply (crawl_depth_induction c N baseURLParsed I A); [| | | | |exact Hrun].
  - intros d u s Hu _ _ Hs y. simpl.
    rewrite elem_of_app, list_elem_of_singleton. intros [Hy| ->]; auto.
  - intros d u parsed r reqs s Hu _ _ _ _ Hs y. simpl.
    rewrite elem_of_app, list_elem_of_singleton. intros [Hy| ->]; auto.
  - intros d u parsed links reqs l _ _ _ Hx Hl _. right.
    eapply extracted_link_same_host; eauto.
  - by left.
  - intros y Hy. by apply elem_of_nil in Hy.
Qed.

(** The seed is recorded first. *)
Lemma crawl_seed_first N baseURLParsed fuel seed st :
  (0 <= N)%Z ->
  crawl c N baseURLParsed fuel seed 0 empty_state = Some st ->
  exists rest, urls st = seed :: rest.
Proof.
  intros HN Hrun.
  pose (I := fun s : CrawlState => exists rest, urls s = seed :: rest).
  assert (Hkeep : forall fuel' u d s s',
             I s -> crawl c N baseURLParsed fuel' u d s = Some s' -> I s').
  { intros fuel' u d s s' Hs Hcall.
    eapply (crawl_preserves c N baseURLParsed I (fun _ => True));
      [| | | |exact Hs|exact Hcall]; try done.
    intros v s0 (rest & Hrest) _ _. exists (rest ++ [v]). simpl. by rewrite Hrest. }
  destruct fuel as [|fuel]; [done|].
  rewrite crawl_unfold in Hrun. simpl visited in Hrun.
  rewrite map_get_empty in Hrun.
  destruct (N <? 0)%Z eqn:Hlt; [lia|]. cbv zeta in Hrun.
  assert (H0 : I (record_url seed empty_state)) by (by exists []).
  destruct (0 =? N)%Z; [by inversion Hrun; subst|].
  destruct (url_Parse seed) as [parsed|]; [|by inversion Hrun; subst].
  destruct (extractLinksFromPage c seed parsed baseURLParsed) as [[links|] reqs];
    [|by inversion Hrun; subst].
  eapply (crawl_links_preserves c I); [| |exact Hrun]; [|exact H0].
  intros l s s' _ _ _ Hs Hcall. eapply Hkeep; eauto.
Qed.

End CrawlMore.

Section FetchOnce.
Context `{E : Env}.
Variable c : Checker.

(** The URLs of the [GET] requests of a log. *)
Definition fetched (reqs : list Request) : list string :=
  ReqURL <$> filter (fun r => Method r = "GET") reqs.

Lemma fetched_app l1 l2 : fetched (l1 ++ l2) = fetched l1 ++ fetched l2.
Proof. unfold fetched. by rewrite filter_app, fmap_app. Qed.

(** Whatever its outcome, the extraction fetches the page at most once and
    sends nothing else but the probe. *)
Lemma extractLinksFromPage_requests pageURL currentURL baseURL :
  let reqs := (extractLinksFromPage c pageURL currentURL baseURL).2 in
  (fetched reqs = [] \/ fetched reqs = [pageURL]) /\
  forall r, r ∈ reqs ->
    (Method r = "GET" \/ Method r = "HEAD") /\
    UserAgentHeader r = UserAgent (config c).
Proof.
  unfold extractLinksFromPage, http_NewRequest.
  destruct (http_NewRequest_error "GET" pageURL).
  { split; [by left|]. intros r Hr. by apply elem_of_nil in Hr. }
  unfold bind, client_Do, ret, set_UserAgent. cbn [Method ReqURL].
  set (get := {| Method := "GET"; ReqURL := pageURL;
                 UserAgentHeader := UserAgent (config c) |}).
  assert (Hone : fetched [get] = [pageURL]) by done.
  assert (Hget : forall r, r ∈ [get] ->
            (Method r = "GET" \/ Method r = "HEAD") /\
            UserAgentHeader r = UserAgent (config c)).
  { intros r ->%list_elem_of_singleton. auto. }
  destruct (client c get) as [resp|]; [|by auto].
  destruct (negb (StatusCode resp =? 200)%Z); [by auto|].
  destruct (html_Parse (RespBody resp)) as [doc|]; [|by auto].
  destruct (findBase currentURL doc None) as [found|]; [by auto|].
  pose proof (getResolveBaseURL_shape c currentURL) as [_ Hprobe].
  destruct (getResolveBaseURL c currentURL) as [base probe].
  cbn [fst snd] in *. rewrite app_nil_r. cbn [app].
  destruct Hprobe as [-> | ->]; [by auto|]. split; [by right|].
  intros r [-> | ->%list_elem_of_singleton]%elem_of_cons; auto.
Qed.

(** Fetched pages are distinct and visited; requests are [GET] or [HEAD]
    with the configured user agent. *)
Definition fetch_once (st : CrawlState) : Prop :=
  NoDup (fetched (requests st)) /\
  (forall u, u ∈ fetched (requests st) -> map_get (visited st) u = true) /\
  (forall r, r ∈ requests st ->
     (Method r = "GET" \/ Method r = "HEAD") /\
     UserAgentHeader r = UserAgent (config c)).

Lemma crawl_fetch_once N baseURLParsed fuel seed st :
  crawl c N baseURLParsed fuel seed 0 empty_state = Some st -> fetch_once st.
Proof.
  intros Hrun.
  eapply (crawl_depth_induction c N baseURLParsed fetch_once (fun _ _ => True));
    [| | | | |exact Hrun]; try done.
  - intros d u s _ _ _ (Hnd & Hvis & Hreq). split; [done|]. split; [|done].
    intros v Hv. simpl. rewrite map_get_insert. case_decide; auto.
  - intros d u parsed r reqs s _ _ _ Hx Hfresh (Hnd & Hvis & Hreq).
    pose proof (extractLinksFromPage_requests u parsed baseURLParsed) as [Hf Hm].
    rewrite Hx in Hf, Hm. cbn [snd] in Hf, Hm. unfold fetch_once. simpl.
    rewrite fetched_app. split; [|split].
    + destruct Hf as [-> | ->]; [by rewrite app_nil_r|].
      apply NoDup_app. split; [done|]. split; [|apply NoDup_singleton].
      intros v Hv ->%list_elem_of_singleton. apply Hvis in Hv. congruence.
    + intros v. rewrite elem_of_app, map_get_insert. intros [Hv|Hv].
      * case_decide; auto.
      * destruct Hf as [Hf|Hf]; rewrite Hf in Hv;
          [by apply elem_of_nil in Hv|].
        apply list_elem_of_singleton in Hv as ->. by rewrite decide_True.
    + intros q [Hq|Hq]%elem_of_app; auto.
  - split; [constructor|]. split; intros ? H; by apply elem_of_nil in H.
Qed.

End FetchOnce.

(** X9. For a seed that parses: with a negative depth bound
    [CrawlWebsite] returns the empty sequence, not even the seed, and sends
    nothing; with a bound of 0 or more the seed is the first element of the
    result. *)
Theorem X9_seed_comes_first
    `{E : Env} (c : Checker) (seed : string) (parsed : URL) (N : Z) :
  url_Parse seed = Ok parsed ->
  exists urls reqs,
    CrawlWebsite c seed N = Some (Ok urls, reqs) /\
    ((N < 0)%Z -> urls = [] /\ reqs = []) /\
    ((0 <= N)%Z -> exists rest, urls = seed :: rest).
Proof.
  intros Hparse.
  destruct (CrawlWebsite_ok c seed parsed N Hparse) as (st & Hst & Hrun).
  exists (urls st), (requests st). split; [done|]. split.
  - intros HN. unfold crawl_fuel in Hst. rewrite crawl_unfold in Hst.
    destruct (N <? 0)%Z eqn:Hlt; [|lia]. by inversion Hst.
  - intros HN. eapply crawl_seed_first; eauto.
Qed.

Lemma X9_witness :
  @url_Parse Fixture.env "http://h/a/"
  = Ok (Fixture.plain_URL "http" "h" "/a/") /\
  exists urls reqs,
    CrawlWebsite (Fixture.checker [] Fixture.cyclic_site) "http://h/a/" (-1)
    = Some (Ok urls, reqs) /\
    ((-1 < 0)%Z -> urls = [] /\ reqs = []) /\
    ((0 <= -1)%Z -> exists rest, urls = "http://h/a/" :: rest).
Proof.
  split; [reflexivity|].
  apply (X9_seed_comes_first (Fixture.checker [] Fixture.cyclic_site)
           "http://h/a/" (Fixture.plain_URL "http" "h" "/a/") (-1)).
  reflexivity.
Defined.

(** X10. The crawl never leaves the host of the seed: every URL it
    returns, other than the seed itself, parses as a URL whose host is the
    host of the parsed seed. *)
Theorem X10_crawl_stays_on_host
    `{E : Env} (c : Checker) (seed : string) (parsed : URL) (N : Z)
    (urls : list string) (reqs : list Request) (x : string) :
  url_Parse seed = Ok parsed ->
  CrawlWebsite c seed N = Some (Ok urls, reqs) ->
  x ∈ urls ->
  x = seed \/
  exists linkURL, url_Parse x = Ok linkURL /\ Host linkURL = Host parsed.
Proof.
  intros Hparse Hrun Hx. unfold CrawlWebsite in Hrun. rewrite Hparse in Hrun.
  destruct (crawl c N parsed (crawl_fuel N) seed 0 empty_state) as [st|] eqn:Hst;
    [|done].
  inversion Hrun; subst. eapply crawl_same_host; eauto.
Qed.

Lemma X10_witness :
  "http://h/b/" = "http://h/a/" \/
  exists linkURL, @url_Parse Fixture.env "http://h/b/" = Ok linkURL /\
                  Host linkURL = "h".
Proof.
  apply (X10_crawl_stays_on_host (Fixture.checker [] Fixture.cyclic_site)
           "http://h/a/" (Fixture.plain_URL "http" "h" "/a/") 5
           ["http://h/a/"; "http://h/b/"]
           [ {| Method := "GET"; ReqURL := "http://h/a/";
                UserAgentHeader := "TestBot/1.0" |};
             {| Method := "GET"; ReqURL := "http://h/b/";
                UserAgentHeader := "TestBot/1.0" |} ]
           "http://h/b/");
    [reflexivity | reflexivity | right; by left].
Defined.

(** X11. The depth bound is respected: every URL returned by
    [CrawlWebsite(seed, N)] is within [N] links of the seed, along pages
    whose extraction succeeds and links that match no exclude pattern. *)
Theorem X11_results_within_depth
    `{E : Env} (c : Checker) (seed : string) (parsed : URL) (N : Z)
    (urls : list string) (reqs : list Request) (x : string) :
  url_Parse seed = Ok parsed ->
  CrawlWebsite c seed N = Some (Ok urls, reqs) ->
  x ∈ urls ->
  exists k, (Z.of_nat k <= N)%Z /\ within c parsed seed k x.
Proof.
  intros Hparse Hrun Hx. unfold CrawlWebsite in Hrun. rewrite Hparse in Hrun.
  destruct (crawl c N parsed (crawl_fuel N) seed 0 empty_state) as [st|] eqn:Hst;
    [|done].
  inversion Hrun; subst. eapply crawl_within; eauto.
Qed.

Lemma X11_witness :
  exists k, (Z.of_nat k <= 1)%Z /\
    within (Fixture.checker [] Fixture.detour_site)
           (Fixture.plain_URL "http" "h" "/a/") "http://h/a/" k "http://h/c/".
Proof.
  apply (X11_results_within_depth (Fixture.checker [] Fixture.detour_site)
           "http://h/a/" (Fixture.plain_URL "http" "h" "/a/") 1
           ["http://h/a/"; "http://h/b/"; "http://h/c/"]
           [ {| Method := "GET"; ReqURL := "http://h/a/";
                UserAgentHeader := "TestBot/1.0" |} ]
           "http://h/c/");
    [reflexivity | reflexivity | right; right; by left].
Defined.

(** X12. No page is fetched twice: the URLs of the [GET] requests of a
    crawl are pairwise distinct and each of them is in the result.  Every
    request of a crawl is a [GET] or a [HEAD] and carries the configured
    user agent. *)
Theorem X12_pages_fetched_once
    `{E : Env} (c : Checker) (seed : string) (N : Z)
    (urls : list string) (reqs : list Request) :
  CrawlWebsite c seed N = Some (Ok urls, reqs) ->
  NoDup (fetched reqs) /\
  (forall u, u ∈ fetched reqs -> u ∈ urls) /\
  (forall r, r ∈ reqs ->
     (Method r = "GET" \/ Method r = "HEAD") /\
     UserAgentHeader r = UserAgent (config c)).
Proof.
  intros Hrun. unfold CrawlWebsite in Hrun.
  destruct (url_Parse seed) as [parsed|]; [|done].
  destruct (crawl c N parsed (crawl_fuel N) seed 0 empty_state) as [st|] eqn:Hst;
    [|done].
  inversion Hrun; subst.
  destruct (crawl_fetch_once c N parsed _ seed st Hst) as (Hnd & Hvis & Hreq).
  pose proof (crawl_consistent c N parsed _ _ _ _ _ consistent_empty Hst)
    as [_ Hcons].
  split; [done|]. split; [|done]. intros u Hu. apply Hcons. auto.
Qed.

Lemma X12_witness :
  NoDup (fetched
    [ {| Method := "GET"; ReqURL := "http://h/a/";
         UserAgentHeader := "TestBot/1.0" |};
      {| Method := "GET"; ReqURL := "http://h/b/";
         UserAgentHeader := "TestBot/1.0" |} ]).
Proof.
  apply (X12_pages_fetched_once (Fixture.checker [] Fixture.cyclic_site)
           "http://h/a/" 5 ["http://h/a/"; "http://h/b/"]
           [ {| Method := "GET"; ReqURL := "http://h/a/";
                UserAgentHeader := "TestBot/1.0" |};
             {| Method := "GET"; ReqURL := "http://h/b/";
                UserAgentHeader := "TestBot/1.0" |} ]).
  reflexivity.
Defined.

(** X13. With a depth bound of at least 1, every link found on the seed's
    page that matches no exclude pattern is in the result. *)
Theorem X13_links_of_seed_are_found
    `{E : Env} (c : Checker) (seed : string) (parsed : URL) (N : Z)
    (links : list string) (reqs : list Request) (l : string) :
  (1 <= N)%Z ->
  url_Parse seed = Ok parsed ->
  extractLinksFromPage c seed parsed parsed = (Ok links, reqs) ->
  l ∈ links -> shouldExclude c l = false ->
  exists urls reqs',
    CrawlWebsite c seed N = Some (Ok urls, reqs') /\ l ∈ urls.
Proof.
  intros HN Hparse Hlinks Hl Hex.
  destruct (CrawlWebsite_ok c seed parsed N Hparse) as (st & Hst & Hrun).
  exists (urls st), (requests st). split; [done|].
  eapply crawl_reaches_links; eauto.
Qed.

Lemma X13_witness :
  exists urls reqs',
    CrawlWebsite (Fixture.checker [] Fixture.detour_site) "http://h/a/" 3
    = Some (Ok urls, reqs') /\ "http://h/c/" ∈ urls.
Proof.
  apply (X13_links_of_seed_are_found (Fixture.checker [] Fixture.detour_site)
           "http://h/a/" (Fixture.plain_URL "http" "h" "/a/") 3
           ["http://h/b/"; "http://h/c/"]
           [ {| Method := "GET"; ReqURL := "http://h/a/";
                UserAgentHeader := "TestBot/1.0" |} ]
           "http://h/c/");
    [lia | reflexivity | reflexivity | right; by left | reflexivity].
Defined.

(** ** More on the sitemap loader *)

(** X14. [GetURLsFromSitemap] returns a sequence exactly when the request
    can be constructed, the transport succeeds, the status is exactly 200
    (any other status, other 2xx codes included, is an error), the body
    can be read and the document decodes.  It sends one [GET] request for
    the sitemap with the configured user agent, or nothing when the
    request cannot be constructed. *)
Theorem X14_sitemap_succeeds_exactly_when
    `{E : Env} (c : Checker) (sitemapURL : string) :
  ((exists urls, (GetURLsFromSitemap c sitemapURL).1 = Ok urls) <->
   (exists resp body sitemap,
      http_NewRequest_error "GET" sitemapURL = None /\
      client c {| Method := "GET"; ReqURL := sitemapURL;
                  UserAgentHeader := UserAgent (config c) |} = Ok resp /\
      StatusCode resp = 200%Z /\
      io_ReadAll (RespBody resp) = Ok body /\
      xml_Unmarshal body = Ok sitemap)) /\
  (GetURLsFromSitemap c sitemapURL).2
  = match http_NewRequest_error "GET" sitemapURL with
    | Some _ => []
    | None => [ {| Method := "GET"; ReqURL := sitemapURL;
                   UserAgentHeader := UserAgent (config c) |} ]
    end.
Proof.
  unfold GetURLsFromSitemap, http_NewRequest.
  destruct (http_NewRequest_error "GET" sitemapURL) as [e|].
  { split; [|done]. split; [by intros [? ?]|]. by intros (? & ? & ? & ? & _). }
  unfold bind, client_Do, ret, set_UserAgent. cbn [Method ReqURL].
  set (get := {| Method := "GET"; ReqURL := sitemapURL;
                 UserAgentHeader := UserAgent (config c) |}).
  destruct (client c get) as [resp|e] eqn:Hdo.
  2:{ split; [|done]. split; [by intros [? ?]|].
      by intros (? & ? & ? & _ & ? & _). }
  destruct (StatusCode resp =? 200)%Z eqn:Hs; cbn [negb].
  2:{ split; [|done]. split; [by intros [? ?]|].
      intros (? & ? & ? & _ & [= <-] & Hst & _). lia. }
  destruct (io_ReadAll (RespBody resp)) as [body|e] eqn:Hread.
  2:{ split; [|done]. split; [by intros [? ?]|].
      intros (? & ? & ? & _ & [= <-] & _ & Hr & _). congruence. }
  destruct (xml_Unmarshal body) as [sitemap|e] eqn:Hxml.
  2:{ split; [|done]. split; [by intros [? ?]|].
      intros (? & ? & ? & _ & [= <-] & _ & Hr & Hx).
      rewrite Hread in Hr. inversion Hr; subst. congruence. }
  split; [|done]. split; [|by eexists].
  intros _. exists resp, body, sitemap. repeat split; try done. lia.
Qed.

(** Exclusion under a longer pattern list. *)
Definition with_patterns `{E : Env} (c : Checker) (patterns : list Regexp)
  : Checker :=
  {| config := {| UserAgent := UserAgent (config c);
                  ExcludePatterns := patterns;
                  Verbose := Verbose (config c) |};
     client := client c |}.

(** X15. Adding exclude patterns only removes URLs from a sitemap result:
    with the patterns [ps ++ more] the loader returns the result for [ps]
    without the URLs that match a pattern of [more], in the same order and
    with the same request. *)
Theorem X15_more_patterns_filter_sitemap
    `{E : Env} (c : Checker) (ps more : list Regexp) (sitemapURL : string)
    (urls : list string) (reqs : list Request) :
  GetURLsFromSitemap (with_patterns c ps) sitemapURL = (Ok urls, reqs) ->
  GetURLsFromSitemap (with_patterns c (ps ++ more)) sitemapURL
  = (Ok (filter (fun u => shouldExclude (with_patterns c more) u = false) urls),
     reqs).
Proof.
  unfold GetURLsFromSitemap, bind, client_Do, ret.
  destruct (http_NewRequest "GET" sitemapURL) as [req|]; [|done].
  cbn [config client with_patterns UserAgent].
  destruct (client c _) as [resp|]; [|done].
  destruct (negb (StatusCode resp =? 200)%Z); [done|].
  destruct (io_ReadAll (RespBody resp)) as [body|]; [|done].
  destruct (xml_Unmarshal body) as [sitemap|]; [|done].
  rewrite !sitemap_loop. intros [= <- <-]. f_equal. f_equal. cbn [app].
  induction (map Loc (URLs sitemap)) as [|u l IH]; [done|].
  assert (Hor : shouldExclude (with_patterns c (ps ++ more)) u
                = shouldExclude (with_patterns c ps) u
                  || shouldExclude (with_patterns c more) u).
  { unfold shouldExclude. cbn [config with_patterns ExcludePatterns].
    apply existsb_app. }
  rewrite !(filter_cons _ u l), Hor.
  destruct (shouldExclude (with_patterns c ps) u) eqn:H1; cbn [orb].
  - rewrite decide_False by done. rewrite decide_False by done. apply IH.
  - rewrite (decide_True (P := false = false)) by done.
    rewrite filter_cons.
    destruct (shouldExclude (with_patterns c more) u) eqn:H2.
    + rewrite !decide_False by done. apply IH.
    + rewrite !decide_True by done. by rewrite IH.
Qed.

Lemma X15_witness :
  GetURLsFromSitemap
    (with_patterns (Fixture.checker [] Fixture.sitemap_site) ([] ++ ["private"]))
    "http://h/sitemap.xml"
  = (Ok ["http://h/a"; ""; "http://h/a"],
     [ {| Method := "GET"; ReqURL := "http://h/sitemap.xml";
          UserAgentHeader := "TestBot/1.0" |} ]).
Proof.
  apply (X15_more_patterns_filter_sitemap
           (Fixture.checker [] Fixture.sitemap_site) [] ["private"]
           "http://h/sitemap.xml"
           ["http://h/a"; ""; "http://h/private/x"; "http://h/a"]
           [ {| Method := "GET"; ReqURL := "http://h/sitemap.xml";
                UserAgentHeader := "TestBot/1.0" |} ]).
  reflexivity.
Defined.

(** ** More on the single-link check *)

(** X16. When the [HEAD] request is answered, whatever the status,
    [checkSingleLink] sends nothing else: a 4xx or 5xx answer to [HEAD] is
    reported as it is and not retried with [GET].  The result carries the
    status of the answer and an error message exactly when that status is
    400 or more. *)
Theorem X16_answered_head_is_final
    `{E : Env} (c : Checker) (checkURL elapsed : string) (resp : Response) :
  http_NewRequest_error "HEAD" checkURL = None ->
  client c {| Method := "HEAD"; ReqURL := checkURL;
              UserAgentHeader := UserAgent (config c) |} = Ok resp ->
  let run := checkSingleLink c checkURL elapsed in
  run.2 = [ {| Method := "HEAD"; ReqURL := checkURL;
               UserAgentHeader := UserAgent (config c) |} ] /\
  LR_StatusCode run.1 = StatusCode resp /\
  (LR_Error run.1 <> "" <-> (400 <= StatusCode resp)%Z).
Proof.
  intros Hreq Hdo. unfold checkSingleLink, http_NewRequest. rewrite Hreq.
  unfold bind, client_Do, ret, set_UserAgent. cbn [Method ReqURL].
  rewrite Hdo. cbn [fst snd app].
  destruct (400 <=? StatusCode resp)%Z eqn:Hs; cbn [fst snd LR_StatusCode LR_Error].
  - repeat split; try done. lia.
  - repeat split; try done. lia.
Qed.

Lemma X16_witness :
  (checkSingleLink (Fixture.checker [] Fixture.cyclic_site) "http://h/a/" "1ms").2
  = [ {| Method := "HEAD"; ReqURL := "http://h/a/";
         UserAgentHeader := "TestBot/1.0" |} ] /\
  LR_StatusCode
    (checkSingleLink (Fixture.checker [] Fixture.cyclic_site) "http://h/a/" "1ms").1
  = 404%Z.
Proof.
  destruct (X16_answered_head_is_final
              (Fixture.checker [] Fixture.cyclic_site) "http://h/a/" "1ms"
              Pages.not_found_response
              eq_refl eq_refl) as (Hreqs & Hstatus & _).
  split; [exact Hreqs | exact Hstatus].
Defined.

(** X17. Whatever happens, [checkSingleLink] reports on the URL it was
    given with the measured duration, sends at most two requests, all for
    that URL and with the configured user agent (a [HEAD], then possibly a
    [GET]), and its result has an error message whenever its status is 400
    or more, and a status below 400 whenever it has no error message. *)
Theorem X17_check_result_shape
    `{E : Env} (c : Checker) (checkURL elapsed : string) :
  let run := checkSingleLink c checkURL elapsed in
  LR_URL run.1 = checkURL /\ LR_Duration run.1 = elapsed /\
  (run.2 = [] \/
   run.2 = [ {| Method := "HEAD"; ReqURL := checkURL;
                UserAgentHeader := UserAgent (config c) |} ] \/
   run.2 = [ {| Method := "HEAD"; ReqURL := checkURL;
                UserAgentHeader := UserAgent (config c) |};
             {| Method := "GET"; ReqURL := checkURL;
                UserAgentHeader := UserAgent (config c) |} ]) /\
  ((400 <= LR_StatusCode run.1)%Z -> LR_Error run.1 <> "") /\
  (LR_Error run.1 = "" -> (LR_StatusCode run.1 < 400)%Z).
Proof.
  unfold checkSingleLink, http_NewRequest.
  destruct (http_NewRequest_error "HEAD" checkURL); [by repeat split; auto|].
  unfold bind, client_Do, ret, set_UserAgent, set_Method. cbn [Method ReqURL UserAgentHeader].
  destruct (client c _) as [resp|e1].
  - cbn [fst snd app].
    destruct (400 <=? StatusCode resp)%Z eqn:Hs;
      cbn [fst snd LR_URL LR_Duration LR_StatusCode LR_Error];
      repeat split; auto; try done; lia.
  - destruct (client c _) as [resp|e2]; cbn [fst snd app].
    + destruct (400 <=? StatusCode resp)%Z eqn:Hs;
        cbn [fst snd LR_URL LR_Duration LR_StatusCode LR_Error];
        repeat split; auto; try done; lia.
    + cbn [fst snd LR_URL LR_Duration LR_StatusCode LR_Error].
      repeat split; auto; try done.
Qed.

(** ** getStatusEmoji

    The strings are those of the source file, byte for byte. *)
Definition getStatusEmoji (statusCode : Z) : string :=
  if (statusCode =? 0)%Z then "‚ùì"
  else if (200 <=? statusCode)%Z && (statusCode <? 300)%Z then "‚úÖ"
  else if (300 <=? statusCode)%Z && (statusCode <? 400)%Z then "üîÑ"
  else if (400 <=? statusCode)%Z && (statusCode <? 500)%Z then "‚ùå"
  else if (500 <=? statusCode)%Z then "üí•"
  else "‚ùì".

(** X18. [getStatusEmoji] splits the integers in five ranges: success for
    200..299, redirect for 300..399, client error for 400..499, server
    error for everything from 500 up (999 included), and the unknown sign
    for everything below 200: 0, the negative numbers and also the codes
    100..199. *)
Theorem X18_status_emoji_ranges (statusCode : Z) :
  (getStatusEmoji statusCode = "‚úÖ" <-> (200 <= statusCode < 300)%Z) /\
  (getStatusEmoji statusCode = "üîÑ" <-> (300 <= statusCode < 400)%Z) /\
  (getStatusEmoji statusCode = "‚ùå" <-> (400 <= statusCode < 500)%Z) /\
  (getStatusEmoji statusCode = "üí•" <-> (500 <= statusCode)%Z) /\
  (getStatusEmoji statusCode = "‚ùì" <-> (statusCode < 200)%Z).
Proof.
  unfold getStatusEmoji.
  destruct (statusCode =? 0)%Z eqn:H0;
  destruct (200 <=? statusCode)%Z eqn:H2; destruct (statusCode <? 300)%Z eqn:H3;
  destruct (300 <=? statusCode)%Z eqn:H4; destruct (statusCode <? 400)%Z eqn:H5;
  destruct (400 <=? statusCode)%Z eqn:H6; destruct (statusCode <? 500)%Z eqn:H7;
  destruct (500 <=? statusCode)%Z eqn:H8; cbn [andb];
  repeat split; intros; try discriminate; try reflexivity; lia.
Qed.

(** * Configuration: package [config] and the command line of [main]

    The process environment is a map from names to values; [os.Getenv]
    reads the empty string for a name that is not set.  [strconv.Atoi],
    [strconv.ParseBool] and [regexp.Compile] are parameters.  [int] and
    [time.Duration] are 64-bit: [Timeout] is a number of nanoseconds and
    the product with [time.Second] wraps around. *)

Definition os_Getenv (environ : gmap string string) (key : string) : string :=
  default "" (environ !! key).

Definition wrap64 (z : Z) : Z := ((z + 2 ^ 63) mod 2 ^ 64 - 2 ^ 63)%Z.

Definition time_Second : Z := 1000000000.

Module ConfigPkg.

(** [config.Config] with all its fields. *)
Record Config `{Env} := mkConfig {
  SitemapURL : string;
  BaseURL : string;
  MaxDepth : Z;
  Timeout : Z;
  UserAgent : string;
  ExcludePatterns : list Regexp;
  FailOnError : bool;
  MaxConcurrent : Z;
  Verbose : bool
}.

End ConfigPkg.

(** The command-line flags of [main]: the value of each flag (its default
    when it was not given) and the names of the flags that were given,
    which is what [flag.Visit] visits. *)
Record Flags := mkFlags {
  flag_sitemapURL : string;
  flag_baseURL : string;
  flag_maxDepth : Z;
  flag_timeout : Z;
  flag_userAgent : string;
  flag_excludePatterns : string;
  flag_failOnError : bool;
  flag_maxConcurrent : Z;
  flag_verbose : bool;
  flags_given : list string
}.

Section Configuration.
Context `{E : Env}.
Variable strconv_Atoi : string -> result Z.
Variable strconv_ParseBool : string -> result bool.
Variable regexp_Compile : string -> result Regexp.
Variable environ : gmap string string.

Definition getEnv (key defaultValue : string) : string :=
  let value := os_Getenv environ key in
  if negb (String.eqb value "") then value else defaultValue.

Definition getEnvInt (key : string) (defaultValue : Z) : Z :=
  let value := os_Getenv environ key in
  if negb (String.eqb value "") then
    match strconv_Atoi value with
    | Ok intValue => intValue
    | Err _ => defaultValue
    end
  else defaultValue.

Definition getEnvBool (key : string) (defaultValue : bool) : bool :=
  let value := os_Getenv environ key in
  if negb (String.eqb value "") then
    match strconv_ParseBool value with
    | Ok boolValue => boolValue
    | Err _ => defaultValue
    end
  else defaultValue.

(** The block [// Parse exclude patterns], which [FromEnvironment] and
    [main] both contain, applied to the configured string. *)
Definition parse_exclude_patterns (excludeStr : string) : list Regexp :=
  if negb (String.eqb excludeStr "") then
    fold_left
      (fun patterns pattern =>
         let pattern := strings_TrimSpace pattern in
         if negb (String.eqb pattern "") then
           match regexp_Compile pattern with
           | Ok regex => patterns ++ [regex]
           | Err _ => patterns
           end
         else patterns)
      (GoStrings.Split excludeStr ",") []
  else [].

Definition FromEnvironment : ConfigPkg.Config :=
  {| ConfigPkg.SitemapURL := getEnv "INPUT_SITEMAP_URL" "";
     ConfigPkg.BaseURL := getEnv "INPUT_BASE_URL" "";
     ConfigPkg.MaxDepth := getEnvInt "INPUT_MAX_DEPTH" 3;
     ConfigPkg.Timeout := wrap64 (getEnvInt "INPUT_TIMEOUT" 30 * time_Second);
     ConfigPkg.UserAgent := getEnv "INPUT_USER_AGENT" "GitHub-Action-Link-Checker/1.0";
     ConfigPkg.ExcludePatterns :=
       parse_exclude_patterns (getEnv "INPUT_EXCLUDE_PATTERNS" "");
     ConfigPkg.FailOnError := getEnvBool "INPUT_FAIL_ON_ERROR" true;
     ConfigPkg.MaxConcurrent := getEnvInt "INPUT_MAX_CONCURRENT" 10;
     ConfigPkg.Verbose := getEnvBool "INPUT_VERBOSE" false |}.

(** *** The helpers of [main] *)

Variable flags : Flags.

(* flag.Visit(func(f *flag.Flag) { if f.Name == flagName { flagSet = true } }) *)
Definition flagSet (flagName : string) : bool :=
  existsb (fun name => String.eqb name flagName) (flags_given flags).

Definition getValueOrEnv (flagValue envKey defaultValue flagName : string)
  : string :=
  if flagSet flagName then flagValue
  else
    let value := os_Getenv environ envKey in
    if negb (String.eqb value "") then value else defaultValue.

Definition getIntValueOrEnv (flagValue : Z) (envKey : string)
    (defaultValue : Z) (flagName : string) : Z :=
  if flagSet flagName then flagValue
  else
    let value := os_Getenv environ envKey in
    if negb (String.eqb value "") then
      match strconv_Atoi value with
      | Ok intValue => intValue
      | Err _ => defaultValue
      end
    else defaultValue.

Definition getBoolValueOrEnv (flagValue : bool) (envKey : string)
    (defaultValue : bool) (flagName : string) : bool :=
  if flagSet flagName then flagValue
  else
    let value := os_Getenv environ envKey in
    if negb (String.eqb value "") then
      match strconv_ParseBool value with
      | Ok boolValue => boolValue
      | Err _ => defaultValue
      end
    else defaultValue.

(** The configuration [main] builds from the flags with the environment
    as fallback. *)
Definition main_config : ConfigPkg.Config :=
  {| ConfigPkg.SitemapURL :=
       getValueOrEnv (flag_sitemapURL flags) "INPUT_SITEMAP_URL" "" "sitemap-url";
     ConfigPkg.BaseURL :=
       getValueOrEnv (flag_baseURL flags) "INPUT_BASE_URL" "" "base-url";
     ConfigPkg.MaxDepth :=
       getIntValueOrEnv (flag_maxDepth flags) "INPUT_MAX_DEPTH" 3 "max-depth";
     ConfigPkg.Timeout :=
       wrap64 (getIntValueOrEnv (flag_timeout flags) "INPUT_TIMEOUT" 30 "timeout"
               * time_Second);
     ConfigPkg.UserAgent :=
       getValueOrEnv (flag_userAgent flags) "INPUT_USER_AGENT"
                     "GitHub-Action-Link-Checker/1.0" "user-agent";
     ConfigPkg.ExcludePatterns :=
       parse_exclude_patterns
         (getValueOrEnv (flag_excludePatterns flags) "INPUT_EXCLUDE_PATTERNS"
                        "" "exclude-patterns");
     ConfigPkg.FailOnError :=
       getBoolValueOrEnv (flag_failOnError flags) "INPUT_FAIL_ON_ERROR" true
                         "fail-on-error";
     ConfigPkg.MaxConcurrent :=
       getIntValueOrEnv (flag_maxConcurrent flags) "INPUT_MAX_CONCURRENT" 10
                        "max-concurrent";
     ConfigPkg.Verbose :=
       getBoolValueOrEnv (flag_verbose flags) "INPUT_VERBOSE" false "verbose" |}.

End Configuration.

(** *** The broken links of [main] *)

(* for _, result := range results {
     if result.StatusCode >= 400 { brokenLinks = append(brokenLinks, result) } } *)
Definition brokenLinks (results : list LinkResult) : list LinkResult :=
  fold_left
    (fun broken result =>
       if (400 <=? LR_StatusCode result)%Z then broken ++ [result] else broken)
    results [].

(** Concrete library functions for the configuration: decimal digits for
    [Atoi], the spellings [strconv.ParseBool] documents, and patterns that
    compile unless they contain an opening bracket. *)
Module Settings.

#[local] Existing Instance Fixture.env.

Fixpoint digits (s : string) (acc : Z) : result Z :=
  match s with
  | EmptyString => Ok acc
  | String a s' =>
      let n := nat_of_ascii a in
      if (48 <=? n)%nat && (n <=? 57)%nat
      then digits s' (10 * acc + Z.of_nat (n - 48))%Z
      else Err "invalid syntax"
  end.

Definition Atoi (s : string) : result Z :=
  if String.eqb s "" then Err "invalid syntax" else digits s 0.

Definition ParseBool (s : string) : result bool :=
  if existsb (String.eqb s) ["1"; "t"; "T"; "TRUE"; "true"; "True"] then Ok true
  else if existsb (String.eqb s) ["0"; "f"; "F"; "FALSE"; "false"; "False"]
  then Ok false
  else Err "invalid syntax".

Definition Compile (pattern : string) : result Regexp :=
  if GoStrings.Contains pattern "[" then Err "missing closing ]"
  else Ok pattern.

Definition action_environment : gmap string string :=
  {[ "INPUT_BASE_URL" := "http://h/a/";
     "INPUT_MAX_DEPTH" := "two";
     "INPUT_TIMEOUT" := "60";
     "INPUT_VERBOSE" := "yes";
     "INPUT_EXCLUDE_PATTERNS" := "private, ,bad[,logout" ]}.

Definition no_flags : Flags :=
  {| flag_sitemapURL := ""; flag_baseURL := ""; flag_maxDepth := 3;
     flag_timeout := 30; flag_userAgent := "GitHub-Action-Link-Checker/1.0";
     flag_excludePatterns := ""; flag_failOnError := true;
     flag_maxConcurrent := 10; flag_verbose := false;
     flags_given := ["version"] |}.

(** The configuration read from [action_environment]. *)
Definition action_config : ConfigPkg.Config :=
  {| ConfigPkg.SitemapURL := ""; ConfigPkg.BaseURL := "http://h/a/";
     ConfigPkg.MaxDepth := 3; ConfigPkg.Timeout := 60000000000;
     ConfigPkg.UserAgent := "GitHub-Action-Link-Checker/1.0";
     ConfigPkg.ExcludePatterns := ["private"; "logout"];
     ConfigPkg.FailOnError := true; ConfigPkg.MaxConcurrent := 10;
     ConfigPkg.Verbose := false |}.

End Settings.

Section ConfigurationFacts.
Context `{E : Env}.
Variable strconv_Atoi : string -> result Z.
Variable strconv_ParseBool : string -> result bool.
Variable regexp_Compile : string -> result Regexp.
Variable environ : gmap string string.

(** What one piece of the comma-separated list contributes. *)
Definition pattern_of_piece (piece : string) : option Regexp :=
  let pattern := strings_TrimSpace piece in
  if String.eqb pattern "" then None
  else match regexp_Compile pattern with
       | Ok regex => Some regex
       | Err _ => None
       end.

Lemma pattern_loop pieces acc :
  fold_left
    (fun patterns pattern =>
       let pattern := strings_TrimSpace pattern in
       if negb (String.eqb pattern "") then
         match regexp_Compile pattern with
         | Ok regex => patterns ++ [regex]
         | Err _ => patterns
         end
       else patterns)
    pieces acc
  = acc ++ omap pattern_of_piece pieces.
Proof.
  revert acc. induction pieces as [|piece rest IH]; intros acc; simpl.
  - by rewrite app_nil_r.
  - rewrite IH. unfold pattern_of_piece at 2.
    destruct (String.eqb (strings_TrimSpace piece) ""); simpl; [done|].
    destruct (regexp_Compile (strings_TrimSpace piece)); [|done].
    by rewrite <- app_assoc.
Qed.

Lemma omap_length {A B} (f : A -> option B) (l : list A) :
  (length (omap f l) <= length l)%nat.
Proof.
  induction l as [|x l IH]; [done|].
  change (omap f (x :: l))
    with (match f x with Some y => y :: omap f l | None => omap f l end).
  destruct (f x); cbn [length]; lia.
Qed.

Lemma getEnv_empty_default key :
  getEnv environ key "" = os_Getenv environ key.
Proof.
  unfold getEnv. destruct (String.eqb (os_Getenv environ key) "") eqn:H; [|done].
  by apply String.eqb_eq in H.
Qed.

End ConfigurationFacts.

(** X19. Without command-line flags for the nine settings, [main] builds
    the configuration [FromEnvironment] builds: the two read the same
    variables with the same defaults and the same fallbacks.  The values of
    flags that were not given play no role. *)
Theorem X19_main_without_flags_is_FromEnvironment
    `{E : Env} (Atoi : string -> result Z) (ParseBool : string -> result bool)
    (Compile : string -> result Regexp) (environ : gmap string string)
    (flags : Flags) :
  Forall (fun name => flagSet flags name = false)
         [ "sitemap-url"; "base-url"; "max-depth"; "timeout"; "user-agent";
           "exclude-patterns"; "fail-on-error"; "max-concurrent"; "verbose" ] ->
  main_config Atoi ParseBool Compile environ flags
  = FromEnvironment Atoi ParseBool Compile environ.
Proof.
  intros Hall.
  repeat (apply Forall_cons_1 in Hall as [? Hall]).
  unfold main_config, FromEnvironment, getValueOrEnv, getIntValueOrEnv,
    getBoolValueOrEnv, getEnv, getEnvInt, getEnvBool.
  repeat match goal with H : flagSet _ _ = false |- _ => rewrite H; clear H end.
  reflexivity.
Qed.

Lemma X19_witness :
  main_config (E := Fixture.env) Settings.Atoi Settings.ParseBool
    Settings.Compile Settings.action_environment Settings.no_flags
  = Settings.action_config.
Proof.
  rewrite (X19_main_without_flags_is_FromEnvironment (E := Fixture.env)
             Settings.Atoi Settings.ParseBool Settings.Compile
             Settings.action_environment Settings.no_flags).
  - reflexivity.
  - repeat constructor.
Defined.

(** X20. The exclude patterns of [FromEnvironment] are read from
    [INPUT_EXCLUDE_PATTERNS] piece by piece: each comma-separated piece is
    trimmed; a blank piece and a piece that does not compile are dropped
    without any error; the others are kept in their order.  So there are
    at most as many patterns as pieces, and none when the variable is
    empty or not set. *)
Theorem X20_exclude_patterns_piecewise
    `{E : Env} (Atoi : string -> result Z) (ParseBool : string -> result bool)
    (Compile : string -> result Regexp) (environ : gmap string string) :
  let excludeStr := os_Getenv environ "INPUT_EXCLUDE_PATTERNS" in
  let patterns :=
    ConfigPkg.ExcludePatterns (FromEnvironment Atoi ParseBool Compile environ) in
  patterns
  = (if String.eqb excludeStr "" then []
     else omap (pattern_of_piece Compile) (GoStrings.Split excludeStr ",")) /\
  (length patterns <= length (GoStrings.Split excludeStr ","))%nat.
Proof.
  intros excludeStr patterns. subst patterns.
  cbn [FromEnvironment ConfigPkg.ExcludePatterns].
  rewrite getEnv_empty_default. fold excludeStr. unfold parse_exclude_patterns.
  destruct (String.eqb excludeStr ""); cbn [negb].
  - split; [done|]. simpl. lia.
  - rewrite pattern_loop. cbn [app]. split; [done|]. apply omap_length.
Qed.

(** X21. [FromEnvironment] does not validate [INPUT_TIMEOUT]: whatever
    integer [n] is read (30 when the variable is unset, empty or not a
    number) becomes [n * time.Second], and that product is [n] seconds
    exactly when [n] lies between -9223372036 and 9223372036; beyond, it
    wraps around.  Zero and negative values are accepted. *)
Theorem X21_timeout_in_seconds
    `{E : Env} (Atoi : string -> result Z) (ParseBool : string -> result bool)
    (Compile : string -> result Regexp) (environ : gmap string string) :
  let n := getEnvInt Atoi environ "INPUT_TIMEOUT" 30 in
  let timeout :=
    ConfigPkg.Timeout (FromEnvironment Atoi ParseBool Compile environ) in
  (timeout = (n * time_Second)%Z <-> (-9223372036 <= n <= 9223372036)%Z) /\
  (os_Getenv environ "INPUT_TIMEOUT" = "" \/
   is_Err (Atoi (os_Getenv environ "INPUT_TIMEOUT")) = true ->
   timeout = (30 * time_Second)%Z).
Proof.
  intros n timeout. subst timeout. cbn [FromEnvironment ConfigPkg.Timeout].
  fold n. split.
  - unfold wrap64, time_Second. split.
    + intros Heq.
      pose proof (Z.mod_pos_bound (n * 1000000000 + 2 ^ 63) (2 ^ 64)) as Hb.
      lia.
    + intros Hn. rewrite Z.mod_small by lia. lia.
  - intros Hcase. subst n. unfold getEnvInt.
    destruct Hcase as [-> | Herr]; [done|].
    destruct (String.eqb _ ""); cbn [negb]; [done|].
    by destruct (Atoi _).
Qed.

Section Verdict.
Context `{E : Env}.

Lemma brokenLinks_loop results acc :
  fold_left
    (fun broken result =>
       if (400 <=? LR_StatusCode result)%Z then broken ++ [result] else broken)
    results acc
  = acc ++ filter (fun r => (400 <= LR_StatusCode r)%Z) results.
Proof.
  revert acc. induction results as [|r rest IH]; intros acc; simpl.
  - by rewrite app_nil_r.
  - rewrite IH, filter_cons. destruct (400 <=? LR_StatusCode r)%Z eqn:Hs.
    + rewrite decide_True by lia. by rewrite <- app_assoc.
    + by rewrite decide_False by lia.
Qed.

(** Over a network on which every request fails, a check has status 0. *)
Lemma checkSingleLink_unreachable (c : Checker) checkURL elapsed :
  (forall req, is_Err (client c req) = true) ->
  LR_StatusCode (checkSingleLink c checkURL elapsed).1 = 0%Z /\
  LR_Error (checkSingleLink c checkURL elapsed).1 <> "".
Proof.
  intros Hdown. unfold checkSingleLink.
  destruct (http_NewRequest "HEAD" checkURL) as [req|]; [|done].
  unfold bind, client_Do, ret.
  pose proof (Hdown (set_UserAgent req (UserAgent (config c)))) as H1.
  destruct (client c (set_UserAgent req (UserAgent (config c)))); [done|].
  pose proof (Hdown (set_Method (set_UserAgent req (UserAgent (config c))) "GET"))
    as H2.
  by destruct (client c (set_Method _ "GET")).
Qed.

End Verdict.

(** X22. The loop of [main] that collects the broken links keeps exactly
    the results whose status code is 400 or more, in their order.  The
    result [checkSingleLink] gives for a URL over a network on which every
    request fails has status code 0, so it is never among them: a link that
    could not be reached is not listed as broken. *)
Theorem X22_unreachable_links_are_not_broken
    `{E : Env} (c : Checker) (checkURL elapsed : string)
    (results : list LinkResult) :
  brokenLinks results
  = filter (fun r => (400 <= LR_StatusCode r)%Z) results /\
  ((forall req, is_Err (client c req) = true) ->
   LR_StatusCode (checkSingleLink c checkURL elapsed).1 = 0%Z /\
   (checkSingleLink c checkURL elapsed).1 ∉ brokenLinks results).
Proof.
  assert (Hfilter : brokenLinks results
                    = filter (fun r => (400 <= LR_StatusCode r)%Z) results).
  { unfold brokenLinks. by rewrite brokenLinks_loop. }
  split; [done|]. intros Hdown.
  destruct (checkSingleLink_unreachable c checkURL elapsed Hdown) as [Hzero _].
  split; [done|]. rewrite Hfilter. intros [Hge _]%list_elem_of_filter. lia.
Qed.

Lemma X22_witness :
  LR_StatusCode
    (checkSingleLink (Fixture.checker [] Fixture.unreachable) "http://h/a/" "1ms").1
  = 0%Z /\
  (checkSingleLink (Fixture.checker [] Fixture.unreachable) "http://h/a/" "1ms").1
  ∉ brokenLinks
      [ (checkSingleLink (Fixture.checker [] Fixture.cyclic_site) "http://h/x/" "1ms").1;
        (checkSingleLink (Fixture.checker [] Fixture.unreachable) "http://h/a/" "1ms").1 ].
Proof.
  apply (proj2 (X22_unreachable_links_are_not_broken
                  (Fixture.checker [] Fixture.unreachable) "http://h/a/" "1ms"
                  [ (checkSingleLink (Fixture.checker [] Fixture.cyclic_site)
                                     "http://h/x/" "1ms").1;
                    (checkSingleLink (Fixture.checker [] Fixture.unreachable)
                                     "http://h/a/" "1ms").1 ])).
  intros req. reflexivity.
Defined.

(** ** setOutput

    The files are a map from paths to contents.  [os.OpenFile] with
    [O_APPEND|O_WRONLY] and no [O_CREATE] fails on a path that does not
    exist; [open_error] stands for its other failures.  What [log.Printf]
    prints is not modelled. *)

Definition newline : ascii := "010"%char.

(** The text [fmt.Fprintf] writes to the file. *)
Definition output_record (name value : string) : string :=
  if GoStrings.Contains value newline
  then name +:+ "<<" +:+ "EOF" +:+ String newline value
            +:+ String newline ("EOF" +:+ String newline "")
  else name +:+ "=" +:+ value +:+ String newline "".

Definition setOutput (environ : gmap string string)
    (open_error : string -> option error) (files : gmap string string)
    (name value : string) : gmap string string :=
  let githubOutput := os_Getenv environ "GITHUB_OUTPUT" in
  if negb (String.eqb githubOutput "") then
    match files !! githubOutput with
    | None => files
    | Some content =>
        match open_error githubOutput with
        | Some _ => files
        | None => <[githubOutput := content +:+ output_record name value]> files
        end
    end
  else files.

Section Outputs.
Import GoStrings.

(** A text is cut in one way only at the first occurrence of a byte. *)
Lemma first_cut_unique (a a' b b' : string) (ch : ascii) :
  Contains a ch = false -> Contains a' ch = false ->
  a +:+ String ch b = a' +:+ String ch b' -> a = a' /\ b = b'.
Proof.
  revert a'. induction a as [|x a IH]; intros a' Ha Ha' Heq.
  - destruct a' as [|y a']; simpl in *.
    + by inversion Heq.
    + inversion Heq; subst. by rewrite Ascii.eqb_refl in Ha'.
  - destruct a' as [|y a']; simpl in *.
    + inversion Heq; subst. by rewrite Ascii.eqb_refl in Ha.
    + inversion Heq; subst.
      apply orb_false_iff in Ha as [_ Ha]. apply orb_false_iff in Ha' as [_ Ha'].
      destruct (IH a' Ha Ha' H1) as [-> ->]. done.
Qed.

End Outputs.

(** X23. [setOutput] never creates or truncates a file.  When
    [GITHUB_OUTPUT] names an existing file that can be opened, the new
    content of that file is its old content followed by one record, and no
    other file changes; when [GITHUB_OUTPUT] is empty or unset, or the file
    is missing or cannot be opened, nothing changes at all. *)
Theorem X23_setOutput_appends
    (environ : gmap string string) (open_error : string -> option error)
    (files : gmap string string) (name value : string) :
  let path := os_Getenv environ "GITHUB_OUTPUT" in
  let files' := setOutput environ open_error files name value in
  dom files' = dom files /\
  (forall other, other <> path -> files' !! other = files !! other) /\
  (forall content,
     path <> "" -> files !! path = Some content -> open_error path = None ->
     files' !! path = Some (content +:+ output_record name value)) /\
  (path = "" \/ files !! path = None \/ open_error path <> None ->
   files' = files).
Proof.
  intros path files'. subst files'. unfold setOutput. fold path.
  destruct (String.eqb path "") eqn:Hp; cbn [negb].
  { apply String.eqb_eq in Hp. repeat split; try done; intros; congruence. }
  apply String.eqb_neq in Hp.
  destruct (files !! path) as [content|] eqn:Hfile.
  2:{ repeat split; try done; intros; congruence. }
  destruct (open_error path) as [e|] eqn:Hopen.
  { repeat split; try done; intros; congruence. }
  repeat split.
  - by apply dom_insert_lookup_L.
  - intros other Hne. by rewrite lookup_insert_ne.
  - intros c _ [= <-] _. by rewrite lookup_insert_eq.
  - intros [Hc | [Hc | Hc]]; done.
Qed.

(** X24. A one-line record can be read back: for names without [=] and
    values without a line break, the record [name=value] followed by a
    line break determines the name and the value. *)
Theorem X24_output_record_injective (name1 value1 name2 value2 : string) :
  GoStrings.Contains name1 "=" = false ->
  GoStrings.Contains name2 "=" = false ->
  GoStrings.Contains value1 newline = false ->
  GoStrings.Contains value2 newline = false ->
  output_record name1 value1 = output_record name2 value2 ->
  name1 = name2 /\ value1 = value2.
Proof.
  intros Hn1 Hn2 Hv1 Hv2. unfold output_record. rewrite Hv1, Hv2.
  intros Heq.
  change (name1 +:+ String "=" (value1 +:+ String newline "")
          = name2 +:+ String "=" (value2 +:+ String newline "")) in Heq.
  apply first_cut_unique in Heq as [-> Heq]; [|done|done].
  by apply first_cut_unique in Heq as [-> _].
Qed.

Lemma X24_witness :
  output_record "broken-links-count" "0"
  = output_record "broken-links-count" "0" /\
  "broken-links-count" = "broken-links-count" /\ "0" = "0".
Proof.
  split; [reflexivity|].
  apply (X24_output_record_injective "broken-links-count" "0"
           "broken-links-count" "0");
    reflexivity.
Defined.

(** ** What a crawl fetches *)

Section FetchDepth.
Context `{E : Env}.
Variable c : Checker.

Lemma crawl_fetches_below_bound N baseURLParsed fuel seed st u :
  crawl c N baseURLParsed fuel seed 0 empty_state = Some st ->
  u ∈ fetched (requests st) ->
  exists k, (Z.of_nat k < N)%Z /\ within c baseURLParsed seed k u.
Proof.
  intros Hrun.
  pose (A := fun (d : Z) (v : string) =>
               exists k, Z.of_nat k = d /\ within c baseURLParsed seed k v).
  pose (I := fun s : CrawlState =>
               forall v, v ∈ fetched (requests s) ->
                 exists k, (Z.of_nat k < N)%Z /\ within c baseURLParsed seed k v).
  cut (I st); [intros HI; apply HI|].
  eapply (crawl_depth_induction c N baseURLParsed I A); [| | | | |exact Hrun].
  - intros d v s _ _ _ Hs. exact Hs.
  - intros d v parsed r reqs s (k & Hk & Hw) Hd _ Hx _ Hs w. simpl.
    rewrite fetched_app, elem_of_app. intros [Hw'|Hw']; [auto|].
    pose proof (extractLinksFromPage_requests c v parsed baseURLParsed) as [Hf _].
    rewrite Hx in Hf. cbn [snd] in Hf.
    destruct Hf as [Hf|Hf]; rewrite Hf in Hw'; [by apply elem_of_nil in Hw'|].
    apply list_elem_of_singleton in Hw' as ->. exists k. split; [lia|done].
  - intros d v parsed links reqs l (k & Hk & Hw) Hd Hparse Hx Hl Hex.
    exists (S k). split; [lia|]. econstructor; eauto.
  - exists 0%nat. split; [done|constructor].
  - intros v Hv. by apply elem_of_nil in Hv.
Qed.

End FetchDepth.

(** X25. Pages at the depth bound are recorded but never fetched: every
    [GET] request of [CrawlWebsite(seed, N)] is for a URL less than [N]
    links away from the seed. *)
Theorem X25_fetches_stay_below_bound
    `{E : Env} (c : Checker) (seed : string) (parsed : URL) (N : Z)
    (urls : list string) (reqs : list Request) (u : string) :
  url_Parse seed = Ok parsed ->
  CrawlWebsite c seed N = Some (Ok urls, reqs) ->
  u ∈ fetched reqs ->
  exists k, (Z.of_nat k < N)%Z /\ within c parsed seed k u.
Proof.
  intros Hparse Hrun Hu. unfold CrawlWebsite in Hrun. rewrite Hparse in Hrun.
  destruct (crawl c N parsed (crawl_fuel N) seed 0 empty_state) as [st|] eqn:Hst;
    [|done].
  inversion Hrun; subst. eapply crawl_fetches_below_bound; eauto.
Qed.

Lemma X25_witness :
  exists k, (Z.of_nat k < 1)%Z /\
    within (Fixture.checker [] Fixture.detour_site)
           (Fixture.plain_URL "http" "h" "/a/") "http://h/a/" k "http://h/a/".
Proof.
  apply (X25_fetches_stay_below_bound (Fixture.checker [] Fixture.detour_site)
           "http://h/a/" (Fixture.plain_URL "http" "h" "/a/") 1
           ["http://h/a/"; "http://h/b/"; "http://h/c/"]
           [ {| Method := "GET"; ReqURL := "http://h/a/";
                UserAgentHeader := "TestBot/1.0" |} ]
           "http://h/a/");
    [reflexivity | reflexivity | by left].
Defined.
